(** * Evidence extractor of the HTA automation project

    A shallow embedding of [extract_relevant_data], [extract_percentage] and
    [extract_cost] of [literature_search.py], with the parts of the Python
    runtime they rest on: dictionaries, truthiness, [str.lower], the [in]
    substring test and [re.findall] for the two patterns of the module. *)

From Stdlib Require Import NArith ZArith Ascii String.
From stdpp Require Import gmap strings list fin_maps.

Local Open Scope string_scope.
Local Open Scope list_scope.

(** ** Text

    A Python [str] is a sequence of Unicode code points.  Dictionary keys and
    the project type are only ever compared for equality with literals of
    the module, so they are kept as Rocq strings. *)

Definition str := list N.

Definition cps (s : string) : str := map N_of_ascii (list_ascii_of_string s).

(** [needle in hay] on strings. *)
Fixpoint starts_with (needle hay : str) : bool :=
  match needle, hay with
  | [], _ => true
  | _ :: _, [] => false
  | x :: needle', y :: hay' => N.eqb x y && starts_with needle' hay'
  end.

Fixpoint contains (needle hay : str) : bool :=
  starts_with needle hay ||
  match hay with
  | [] => false
  | _ :: hay' => contains needle hay'
  end.

(** [s.replace(c, '')] for a one-character [c]. *)
Definition remove_char (c : N) (s : str) : str :=
  List.filter (fun x => negb (N.eqb x c)) s.

(** ** Values, dictionaries and exceptions *)

Inductive pyval : Type :=
| PNone
| PStr (s : str)
| PInt (z : Z).

Definition truthy (v : pyval) : bool :=
  match v with
  | PNone => false
  | PStr [] => false
  | PStr (_ :: _) => true
  | PInt z => negb (Z.eqb z 0)
  end.

(** [v or w] *)
Definition py_or (v w : pyval) : pyval := if truthy v then v else w.

(** [d.get(k)] *)
Definition dict_get (d : gmap string pyval) (k : string) : pyval :=
  match d !! k with
  | Some v => v
  | None => PNone
  end.

Inductive exn : Type :=
| AttributeError.

Inductive result (A : Type) : Type :=
| Ok (a : A)
| Raise (e : exn).
Arguments Ok {A} a.
Arguments Raise {A} e.

Definition bind {A B : Type} (m : result A) (f : A -> result B) : result B :=
  match m with
  | Ok a => f a
  | Raise e => Raise e
  end.

Notation "'try' x ':=' m 'in' k" := (bind m (fun x => k))
  (at level 10, x name, m at level 100, k at level 200).

(** The [for] loop over a list whose body may raise. *)
Fixpoint for_each {A S : Type} (body : S -> A -> result S) (xs : list A) (st : S)
  : result S :=
  match xs with
  | [] => Ok st
  | x :: xs' => try st' := body st x in for_each body xs' st'
  end.

(** ** Regular expressions

    The fragment of Python's [re] syntax the module uses, and a backtracking
    matcher that tries the alternatives in the order [re] does: a greedy
    repetition iterates before it stops, an optional part is tried before it
    is skipped. *)

Inductive regex : Type :=
| Chr (c : N)
| Cls (cs : list N)
| Dig
| Cat (r1 r2 : regex)
| Star (r : regex)
| Plus (r : regex)
| Opt (r : regex)
| Grp (r : regex).

(** What a match attempt yields: the text left after the match and the text
    of group 1, when it took part. *)
Definition outcome : Type := str * option str.
Definition kont : Type := str -> option str -> option outcome.

Definition orelse (a b : option outcome) : option outcome :=
  match a with
  | Some o => Some o
  | None => b
  end.

Definition accept : kont := fun s g => Some (s, g).

(** Greedy iteration of [body]; an iteration has to consume text, and [n]
    bounds the iterations by the length of the text. *)
Fixpoint star (body : str -> option str -> kont -> option outcome)
    (n : nat) (s : str) (g : option str) (k : kont) : option outcome :=
  match n with
  | O => k s g
  | S n' =>
      orelse
        (body s g (fun s1 g1 =>
           if (length s1 <? length s)%nat then star body n' s1 g1 k else None))
        (k s g)
  end.

(** ** The Python runtime on ASCII text

    On code points below 128 [str.lower] maps the capital letters to the
    small ones and leaves the rest alone, and [\d] matches the ten digits. *)

Definition ascii_lower_char (c : N) : N :=
  if (65 <=? c)%N && (c <=? 90)%N then (c + 32)%N else c.

Definition ascii_lower (s : str) : str := map ascii_lower_char s.

Definition ascii_decimal (c : N) : bool := (48 <=? c)%N && (c <=? 57)%N.

Definition is_ascii (s : str) : bool := forallb (fun c => (c <? 128)%N) s.

Definition lower_ok (lower : str -> str) : Prop :=
  forall s, is_ascii s = true -> lower s = ascii_lower s.

Definition decimal_ok (is_decimal : N -> bool) : Prop :=
  forall c, (c < 128)%N -> is_decimal c = ascii_decimal c.

(** A record as [fetch_abstracts] builds it, with the given title and
    abstract. *)
Definition sample (title : string) (abstract : str) : gmap string pyval :=
  <["pmid" := PStr (cps "31452104")]>
    (<["title" := PStr (cps title)]>
       (<["abstract" := PStr abstract]>
          (<["year" := PStr (cps "2019")]>
             (<["journal" := PStr (cps "Vaccine")]>
                (<["doi" := PStr []]>
                   (<["authors" := PStr []]> ∅)))))).

(** [is_decimal] read through the ASCII table where that table decides. *)
Definition ascii_view (is_decimal : N -> bool) (c : N) : bool :=
  if (c <? 128)%N then ascii_decimal c else is_decimal c.

(** How a matcher for a sub-pattern has to treat its continuation. *)
Definition body_ext (body : str -> option str -> kont -> option outcome)
  : Prop :=
  forall s g k1 k2,
    (forall s' g', k1 s' g' = k2 s' g') -> body s g k1 = body s g k2.

Definition body_strict (body : str -> option str -> kont -> option outcome)
  : Prop :=
  forall s g k, (forall s' g', k s' g' = None) -> body s g k = None.

Section Extractor.

(** The two Unicode tables of the Python runtime the module relies on:
    [str.lower] and the class of decimal digits [\d] matches on [str]
    patterns. *)
Variable lower : str -> str.
Variable is_decimal : N -> bool.

Definition one_char (p : N -> bool) (s : str) (g : option str) (k : kont)
  : option outcome :=
  match s with
  | x :: s' => if p x then k s' g else None
  | [] => None
  end.

Fixpoint bt (r : regex) (s : str) (g : option str) (k : kont) {struct r}
  : option outcome :=
  match r with
  | Chr c => one_char (N.eqb c) s g k
  | Cls cs => one_char (fun x => existsb (N.eqb x) cs) s g k
  | Dig => one_char is_decimal s g k
  | Cat r1 r2 => bt r1 s g (fun s1 g1 => bt r2 s1 g1 k)
  | Star r1 => star (bt r1) (length s) s g k
  | Plus r1 => bt r1 s g (fun s1 g1 => star (bt r1) (length s1) s1 g1 k)
  | Opt r1 => orelse (bt r1 s g k) (k s g)
  | Grp r1 =>
      bt r1 s g (fun s1 _ => k s1 (Some (take (length s - length s1) s)))
  end.

(** The texts a pattern matches. *)
Inductive lang : regex -> str -> Prop :=
| lang_chr c : lang (Chr c) [c]
| lang_cls cs c : existsb (N.eqb c) cs = true -> lang (Cls cs) [c]
| lang_dig c : is_decimal c = true -> lang Dig [c]
| lang_cat r1 r2 s1 s2 :
    lang r1 s1 -> lang r2 s2 -> lang (Cat r1 r2) (s1 ++ s2)
| lang_star_stop r : lang (Star r) []
| lang_star_iter r s1 s2 :
    lang r s1 -> lang (Star r) s2 -> lang (Star r) (s1 ++ s2)
| lang_plus r s1 s2 :
    lang r s1 -> lang (Star r) s2 -> lang (Plus r) (s1 ++ s2)
| lang_opt_skip r : lang (Opt r) []
| lang_opt_take r s : lang r s -> lang (Opt r) s
| lang_grp r s : lang r s -> lang (Grp r) s.

(** [text] has a substring the pattern matches. *)
Definition occurs_in (r : regex) (text : str) : Prop :=
  exists pre m post, text = pre ++ m ++ post /\ lang r m.

Definition body_sound (body : str -> option str -> kont -> option outcome)
    (r : regex) : Prop :=
  forall s g k o,
    body s g k = Some o ->
    exists s1 s2 g', s = s1 ++ s2 /\ lang r s1 /\ k s2 g' = Some o.

(** [re.search(r, s)]: the first position, from the left, where the pattern
    matches. *)
Fixpoint search (r : regex) (s : str) : option outcome :=
  match bt r s None accept with
  | Some o => Some o
  | None =>
      match s with
      | [] => None
      | _ :: s' => search r s'
      end
  end.

(** [re.findall(r, s)] for a pattern with one group: the scan restarts where
    the previous match ended, or one character further when nothing matched
    there. *)
Fixpoint findall_from (fuel : nat) (r : regex) (s : str) : list str :=
  match fuel with
  | O => []
  | S fuel' =>
      let skip := match s with
                  | [] => []
                  | _ :: s' => findall_from fuel' r s'
                  end in
      match bt r s None accept with
      | Some (rest, g) =>
          default [] g ::
          (if (length rest <? length s)%nat then findall_from fuel' r rest
           else skip)
      | None => skip
      end
  end.

Definition findall (r : regex) (s : str) : list str :=
  findall_from (S (length s)) r s.

(** [\d+(?:\.\d+)?], the group of the percentage pattern. *)
Definition number_re : regex :=
  Cat (Plus Dig) (Opt (Cat (Chr 46) (Plus Dig))).

(** [(\d+(?:\.\d+)?)%] *)
Definition percentage_re : regex :=
  Cat (Grp number_re) (Chr 37).

(** [[\$â‚¹](\d+(?:,\d+)*(?:\.\d+)?)]: the class holds the four characters
    the source file has between the brackets, U+0024, U+00E2, U+201A and
    U+00B9. *)
Definition amount_re : regex :=
  Cat (Plus Dig)
      (Cat (Star (Cat (Chr 44) (Plus Dig))) (Opt (Cat (Chr 46) (Plus Dig)))).

Definition cost_re : regex :=
  Cat (Cls [36; 226; 8218; 185]%N) (Grp amount_re).

(** An unsigned decimal number: digits, or digits, a point and digits. *)
Definition digits (d : str) : Prop :=
  d <> [] /\ Forall (fun c => is_decimal c = true) d.

Definition unsigned_decimal (n : str) : Prop :=
  digits n \/ exists a b, digits a /\ digits b /\ n = a ++ [46%N] ++ b.

Definition extract_percentage (text : str) : pyval :=
  match findall percentage_re text with
  | p :: _ => PStr p
  | [] => PNone
  end.

Definition extract_cost (text : str) : pyval :=
  match findall cost_re text with
  | c :: _ => PStr (remove_char 44 c)
  | [] => PNone
  end.

(** ** The extractor *)

(** [x.lower()] on a value: only a string has the method. *)
Definition py_lower (v : pyval) : result str :=
  match v with
  | PStr s => Ok (lower s)
  | _ => Raise AttributeError
  end.

(** [if kw1 in abstract or kw2 in abstract: data_point[field] = value] *)
Definition set_if (cond : bool) (field : string) (value : pyval)
    (data_point : gmap string pyval) : gmap string pyval :=
  if cond then <[field := value]> data_point else data_point.

Definition has (kw : string) (abstract : str) : bool :=
  contains (cps kw) abstract.

(** The project-specific branch of the loop body. *)
Definition project_fields (project_type : string) (abstract : str)
    (data_point : gmap string pyval) : gmap string pyval :=
  if String.eqb project_type "hpv_vaccine" then
    let data_point :=
      set_if (has "efficacy" abstract || has "effectiveness" abstract)
             "efficacy" (extract_percentage abstract) data_point in
    let data_point :=
      set_if (has "cost" abstract || has "price" abstract)
             "cost" (extract_cost abstract) data_point in
    set_if (has "coverage" abstract || has "uptake" abstract)
           "coverage" (extract_percentage abstract) data_point
  else if String.eqb project_type "ncd_screening" then
    let data_point :=
      set_if (has "sensitivity" abstract)
             "sensitivity" (extract_percentage abstract) data_point in
    let data_point :=
      set_if (has "specificity" abstract)
             "specificity" (extract_percentage abstract) data_point in
    set_if (has "cost" abstract) "cost" (extract_cost abstract) data_point
  else if String.eqb project_type "dialysis" then
    let data_point :=
      set_if (has "survival" abstract)
             "survival_rate" (extract_percentage abstract) data_point in
    set_if (has "cost" abstract)
           "cost_per_session" (extract_cost abstract) data_point
  else if String.eqb project_type "mdrtb" then
    let data_point :=
      set_if (has "success" abstract || has "cure" abstract)
             "success_rate" (extract_percentage abstract) data_point in
    set_if (has "cost" abstract) "cost" (extract_cost abstract) data_point
  else if String.eqb project_type "ai_tb_cxr" then
    let data_point :=
      set_if (has "accuracy" abstract)
             "accuracy" (extract_percentage abstract) data_point in
    let data_point :=
      set_if (has "sensitivity" abstract)
             "sensitivity" (extract_percentage abstract) data_point in
    set_if (has "specificity" abstract)
           "specificity" (extract_percentage abstract) data_point
  else data_point.

(** The four fields every data point starts with. *)
Definition baseline (article : gmap string pyval) : gmap string pyval :=
  <["doi" := dict_get article "doi"]>
    (<["year" := dict_get article "year"]>
       (<["title" := dict_get article "title"]>
          (<["pmid" := dict_get article "pmid"]> ∅))).

(** [(article.get(key) or "").lower()] *)
Definition lowered (article : gmap string pyval) (key : string) : result str :=
  py_lower (py_or (dict_get article key) (PStr [])).

(** The data point the loop body builds for one article. *)
Definition data_point_of (project_type : string) (article : gmap string pyval)
  : result (gmap string pyval) :=
  try abstract := lowered article "abstract" in
  try title := lowered article "title" in
  Ok (project_fields project_type abstract (baseline article)).

(** One turn of the loop: an entry that is [None] is skipped. *)
Definition loop_body (project_type : string)
    (extracted_data : list (gmap string pyval))
    (article : option (gmap string pyval))
  : result (list (gmap string pyval)) :=
  match article with
  | None => Ok extracted_data
  | Some article =>
      try data_point := data_point_of project_type article in
      if (4 <? size data_point)%nat
      then Ok (extracted_data ++ [data_point])
      else Ok extracted_data
  end.

Definition extract_relevant_data
    (articles : list (option (gmap string pyval))) (project_type : string)
  : result (list (gmap string pyval)) :=
  for_each (loop_body project_type) articles [].

(** ** The rule table of the specification

    Section 4.1 of the specification gives the project-specific branch as a
    table from a category to its rules, each with its trigger keywords, the
    metric field it fills and the kind of number it looks for.
    [project_fields_rules] below shows the branch of the source does what
    the table says. *)

Inductive kind : Type :=
| Percentage
| Currency.

Record rule : Type := Rule {
  triggers : list string;
  field : string;
  how : kind
}.

Definition spec_rules (project_type : string) : list rule :=
  if String.eqb project_type "hpv_vaccine" then
    [ Rule ["efficacy"; "effectiveness"] "efficacy" Percentage;
      Rule ["cost"; "price"] "cost" Currency;
      Rule ["coverage"; "uptake"] "coverage" Percentage ]
  else if String.eqb project_type "ncd_screening" then
    [ Rule ["sensitivity"] "sensitivity" Percentage;
      Rule ["specificity"] "specificity" Percentage;
      Rule ["cost"] "cost" Currency ]
  else if String.eqb project_type "dialysis" then
    [ Rule ["survival"] "survival_rate" Percentage;
      Rule ["cost"] "cost_per_session" Currency ]
  else if String.eqb project_type "mdrtb" then
    [ Rule ["success"; "cure"] "success_rate" Percentage;
      Rule ["cost"] "cost" Currency ]
  else if String.eqb project_type "ai_tb_cxr" then
    [ Rule ["accuracy"] "accuracy" Percentage;
      Rule ["sensitivity"] "sensitivity" Percentage;
      Rule ["specificity"] "specificity" Percentage ]
  else [].

Definition fires (abstract : str) (r : rule) : bool :=
  existsb (fun kw => has kw abstract) (triggers r).

Definition extract (k : kind) (abstract : str) : pyval :=
  match k with
  | Percentage => extract_percentage abstract
  | Currency => extract_cost abstract
  end.

Definition apply_rule (abstract : str) (data_point : gmap string pyval)
    (r : rule) : gmap string pyval :=
  set_if (fires abstract r) (field r) (extract (how r) abstract) data_point.

Definition apply_rules (abstract : str) (rs : list rule)
    (data_point : gmap string pyval) : gmap string pyval :=
  fold_left (apply_rule abstract) rs data_point.

(** The pattern a rule of a given kind looks for. *)
Definition pattern_of (k : kind) : regex :=
  match k with
  | Percentage => percentage_re
  | Currency => cost_re
  end.

Definition baseline_keys : list string := ["pmid"; "title"; "year"; "doi"].

Definition recognized : list string :=
  ["hpv_vaccine"; "ncd_screening"; "dialysis"; "mdrtb"; "ai_tb_cxr"].

(** ** Well-typed records

    The text fields of a record hold a string or [None], or are missing. *)

Definition text_or_none (v : pyval) : bool :=
  match v with
  | PInt _ => false
  | _ => true
  end.

Definition well_typed (article : gmap string pyval) : Prop :=
  text_or_none (dict_get article "title") = true /\
  text_or_none (dict_get article "abstract") = true.

(** A text field that is [None], missing or the empty string. *)
Definition blank (v : pyval) : bool :=
  match v with
  | PNone => true
  | PStr [] => true
  | _ => false
  end.

(** The text [(v or "")] stands for when [v] is a string or [None]. *)
Definition text_of (v : pyval) : str :=
  match v with
  | PStr s => s
  | _ => []
  end.

(** ** The search-strings file

    [perform_literature_search] reads the PubMed query off the lines of
    [02_search_strings.txt].  [is_space] is the class of characters
    [str.strip] removes. *)

Variable is_space : N -> bool.

Fixpoint skip_while (p : N -> bool) (s : str) : str :=
  match s with
  | [] => []
  | x :: s' => if p x then skip_while p s' else s
  end.

(** [s.strip()] *)
Definition strip (s : str) : str :=
  rev (skip_while is_space (rev (skip_while is_space s))).

(** [s.split(sep)] for a one-character separator. *)
Fixpoint split_on (sep : N) (s : str) : list str :=
  match s with
  | [] => [[]]
  | x :: s' =>
      if N.eqb x sep then [] :: split_on sep s'
      else match split_on sep s' with
           | piece :: pieces => (x :: piece) :: pieces
           | [] => [[x]]
           end
  end.

(** [s.split(sep, 1)] for a one-character separator. *)
Fixpoint split_once (sep : N) (s : str) : list str :=
  match s with
  | [] => [[]]
  | x :: s' =>
      if N.eqb x sep then [[]; s']
      else match split_once sep s' with
           | piece :: pieces => (x :: piece) :: pieces
           | [] => [[x]]
           end
  end.

(** [range(start, stop, step)] for a positive step. *)
Definition py_range (start stop step : nat) : list nat :=
  map (fun k => start + k * step)%nat
      (seq 0 ((stop - start + (step - 1)) / step)).

(** Truth value of a variable that holds [None] or a string. *)
Definition filled (v : option str) : bool :=
  match v with
  | Some (_ :: _) => true
  | _ => false
  end.

(** [not line or line.startswith('#') or line.startswith('-')] *)
Definition skipped (line : str) : bool :=
  match line with
  | [] => true
  | _ => starts_with [35%N] line || starts_with [45%N] line
  end.

(** The query after the colon of a header line:
    [parts = line.split(':', 1)], taken when [len(parts) > 1] and
    [parts[1].strip()] is not empty. *)
Definition after_colon (line : str) : option str :=
  if contains [58%N] line then
    match split_once 58 line with
    | _ :: part :: _ =>
        match strip part with
        | [] => None
        | q => Some q
        end
    | _ => None
    end
  else None.

(** The inner loop over [j]: the first of the lines [lines[i + j]] that is
    neither empty nor a comment.  The indices are below [len(lines)]. *)
Fixpoint look_ahead (lines : list str) (i : nat) (js : list nat) : option str :=
  match js with
  | [] => None
  | j :: js' =>
      let next_line := strip (default [] (lines !! (i + j)%nat)) in
      if skipped next_line then look_ahead lines i js' else Some next_line
  end.

(** The loop over the lines, from line [i] on; [pubmed_query] is the
    variable of that name, and a result given without a recursive call is a
    [break]. *)
Fixpoint scan_lines (lines : list str) (i : nat) (todo : list str)
    (pubmed_query : option str) : option str :=
  match todo with
  | [] => pubmed_query
  | raw :: todo' =>
      let line := strip raw in
      if skipped line then scan_lines lines (S i) todo' pubmed_query
      else if contains (cps "pubmed") (lower line) then
        match after_colon line with
        | Some q => Some q
        | None =>
            let pubmed_query :=
              match look_ahead lines i
                      (py_range 1 (Nat.min 5 (length lines - i)) 1) with
              | Some q => Some q
              | None => pubmed_query
              end in
            if filled pubmed_query then pubmed_query
            else scan_lines lines (S i) todo' pubmed_query
        end
      else if negb (filled pubmed_query) && (10 <? length line)%nat
      then Some line
      else scan_lines lines (S i) todo' pubmed_query
  end.

(** The query of a search-strings file, [None] when it has none. *)
Definition pubmed_query_of (search_content : str) : option str :=
  let lines := split_on 10 search_content in
  let pubmed_query := scan_lines lines 0 lines None in
  if filled pubmed_query then pubmed_query else None.

(** The project type, from the name of the project folder. *)
Definition project_type_of (project_name : str) : string :=
  if contains (cps "hpv") (lower project_name) then "hpv_vaccine"
  else if contains (cps "ncd") (lower project_name) then "ncd_screening"
  else if contains (cps "dialysis") (lower project_name) then "dialysis"
  else if contains (cps "mdrtb") (lower project_name) then "mdrtb"
  else if contains (cps "ai_tb") (lower project_name) then "ai_tb_cxr"
  else "general".

(** ** Fetching

    The requests to the E-utilities and the parsing of their answers are
    outside the model: [esearch] stands for [search_pubmed], and [efetch]
    for the request of [fetch_abstracts] together with what
    [root.findall(".//PubmedArticle")] and the [find] calls give for each
    article.  Either may fail with an exception of the network layer or of
    the parser. *)

Variable net_exn : Type.

(** What [find] gives for an element: nothing, or an element whose [text]
    is a string or [None]. *)
Definition found : Type := option (option str).

Record pubmed_xml : Type := PubmedXml {
  xml_pmid : found;
  xml_title : found;
  xml_abstract : found;
  xml_year : found;
  xml_journal : found;
  xml_doi : found;
  xml_authors : list (found * found)
}.

Variable esearch : str -> nat -> net_exn + list str.
Variable efetch : list str -> net_exn + list pubmed_xml.

(** [elem.text if elem is not None else ""] *)
Definition text_or_empty (elem : found) : pyval :=
  match elem with
  | None => PStr []
  | Some None => PNone
  | Some (Some t) => PStr t
  end.

(** What a [text] looks like inside an f-string. *)
Definition formatted (t : option str) : str :=
  match t with
  | Some s => s
  | None => cps "None"
  end.

(** The names appended to [authors]: [lastname] and [firstname] are the
    two components of a pair. *)
Fixpoint author_names (authors : list (found * found)) : list str :=
  match authors with
  | [] => []
  | (Some lastname, Some firstname) :: authors' =>
      (formatted firstname ++ cps " " ++ formatted lastname)
      :: author_names authors'
  | _ :: authors' => author_names authors'
  end.

(** [sep.join(pieces)] *)
Fixpoint join (sep : str) (pieces : list str) : str :=
  match pieces with
  | [] => []
  | [piece] => piece
  | piece :: pieces' => piece ++ sep ++ join sep pieces'
  end.

(** The record [fetch_abstracts] appends for one article. *)
Definition article_of_xml (x : pubmed_xml) : gmap string pyval :=
  <["pmid" := text_or_empty (xml_pmid x)]>
    (<["title" := text_or_empty (xml_title x)]>
       (<["abstract" := text_or_empty (xml_abstract x)]>
          (<["year" := text_or_empty (xml_year x)]>
             (<["journal" := text_or_empty (xml_journal x)]>
                (<["doi" := text_or_empty (xml_doi x)]>
                   (<["authors" :=
                        PStr (join (cps "; ") (author_names (xml_authors x)))]>
                      ∅)))))).

Definition fetch_abstracts (pmids : list str)
  : net_exn + list (gmap string pyval) :=
  match pmids with
  | [] => inr []
  | _ =>
      match efetch pmids with
      | inl e => inl e
      | inr xs => inr (map article_of_xml xs)
      end
  end.

(** The loop of [search_and_fetch] over the starts [i] of the batches. *)
Fixpoint fetch_batches (pmids : list str) (batch_size : nat)
    (starts : list nat) (articles : list (gmap string pyval))
  : net_exn + list (gmap string pyval) :=
  match starts with
  | [] => inr articles
  | i :: starts' =>
      let batch_pmids := take batch_size (drop i pmids) in
      match fetch_abstracts batch_pmids with
      | inl e => inl e
      | inr batch_articles =>
          fetch_batches pmids batch_size starts' (articles ++ batch_articles)
      end
  end.

Definition search_and_fetch (query : str) (max_results : nat)
  : net_exn + list (gmap string pyval) :=
  match esearch query max_results with
  | inl e => inl e
  | inr pmids =>
      let pmids := if (100 <? length pmids)%nat then take 100 pmids else pmids in
      fetch_batches pmids 20 (py_range 0 (length pmids) 20) []
  end.

(** The batches [search_and_fetch] asks for, one after the other. *)
Definition batches_of (pmids : list str) : list (list str) :=
  let pmids := if (100 <? length pmids)%nat then take 100 pmids else pmids in
  map (fun i => take 20 (drop i pmids)) (py_range 0 (length pmids) 20).

(** ** Files

    The steps of [perform_literature_search] and of
    [update_data_extraction_template] that touch the disk may raise
    ([read_text], [mkdir], [to_csv], [read_csv]); [fs_exn] holds what they
    raise. *)

Variable fs_exn : Type.

(** How [perform_literature_search] ends: with its return value, or with an
    exception of the network layer, of a file step or of the extractor;
    [written] lists the files under [data/] written by then. *)
Inductive ending : Type :=
| Returned (value : option (list (gmap string pyval))) (written : list string)
| NetworkError (e : net_exn)
| FileError (e : fs_exn) (written : list string)
| PythonError (e : exn).

(** [mkdir_data] is how [data_dir.mkdir(exist_ok=True)] goes, and
    [write_csv name rows] how [pd.DataFrame(rows).to_csv] goes for the file
    [name] under [data/]: [None] when it succeeds, else the exception.
    [search_file] is [02_search_strings.txt]: [None] when the file does not
    exist, else what [read_text()] gives, the text or an exception. *)
Definition perform_literature_search (mkdir_data : option fs_exn)
    (write_csv : string -> list (gmap string pyval) -> option fs_exn)
    (search_file : option (fs_exn + str)) (project_name : str) : ending :=
  match search_file with
  | None => Returned None []
  | Some (inl e) => FileError e []
  | Some (inr search_content) =>
      match pubmed_query_of search_content with
      | None => Returned None []
      | Some pubmed_query =>
          let project_type := project_type_of project_name in
          match search_and_fetch pubmed_query 50 with
          | inl e => NetworkError e
          | inr articles =>
              match extract_relevant_data (Some <$> articles) project_type with
              | Raise e => PythonError e
              | Ok extracted_data =>
                  match mkdir_data with
                  | Some e => FileError e []
                  | None =>
                      match write_csv "search_results_raw.csv" articles with
                      | Some e => FileError e []
                      | None =>
                          match extracted_data with
                          | [] =>
                              Returned (Some extracted_data)
                                ["search_results_raw.csv"]
                          | _ :: _ =>
                              match write_csv "extracted_data.csv"
                                      extracted_data with
                              | Some e =>
                                  FileError e ["search_results_raw.csv"]
                              | None =>
                                  Returned (Some extracted_data)
                                    ["search_results_raw.csv";
                                     "extracted_data.csv"]
                              end
                          end
                      end
                  end
              end
          end
      end
  end.

(** ** The template of a project

    [update_data_extraction_template] of [data_processor.py] reads
    [data/extracted_data.csv] and the template file and hands both tables
    to the function that fills the template of the project.  A file is
    [None] when it does not exist, else what [pd.read_csv] gives for it, a
    table or an exception; [dataframe] is the type of the tables. *)

Variable dataframe : Type.

Inductive template : Type :=
| HpvTemplate
| NcdTemplate
| DialysisTemplate
| MdrtbTemplate
| AiTbTemplate.

(** How [update_data_extraction_template] goes on: it returns [None] after
    one of its three messages, [read_csv] raises, or it returns what the
    function for the template [t] makes of the two tables. *)
Inductive template_step : Type :=
| NoExtractedData
| NoTemplateFile
| UnknownProjectType
| ReadError (e : fs_exn)
| Fill (t : template) (df_template df_extracted : dataframe).

Definition update_data_extraction_template
    (extracted_file template_file : option (fs_exn + dataframe))
    (project_name : str) : template_step :=
  match extracted_file with
  | None => NoExtractedData
  | Some (inl e) => ReadError e
  | Some (inr df_extracted) =>
      match template_file with
      | None => NoTemplateFile
      | Some (inl e) => ReadError e
      | Some (inr df_template) =>
          let project_name := lower project_name in
          if contains (cps "hpv") project_name then
            Fill HpvTemplate df_template df_extracted
          else if contains (cps "ncd") project_name then
            Fill NcdTemplate df_template df_extracted
          else if contains (cps "dialysis") project_name then
            Fill DialysisTemplate df_template df_extracted
          else if contains (cps "mdrtb") project_name then
            Fill MdrtbTemplate df_template df_extracted
          else if contains (cps "ai_tb") project_name then
            Fill AiTbTemplate df_template df_extracted
          else UnknownProjectType
      end
  end.

(** ** Notions for the proofs about greedy matching *)

(** A text that does not start with a digit. *)
Definition clean_head (s : str) : Prop :=
  match s with
  | d :: _ => is_decimal d = false
  | [] => True
  end.

(** A continuation that succeeds wherever the text does not start with a
    digit, and leaves such a text behind. *)
Definition clean_kont (k : kont) : Prop :=
  forall s g, clean_head s -> exists o, k s g = Some o /\ clean_head (fst o).

(** What fetching a list of batches one after the other gives: the records
    of all of them, or the exception of the first batch that fails. *)
Fixpoint fetch_all (batches : list (list str))
  : net_exn + list (gmap string pyval) :=
  match batches with
  | [] => inr []
  | batch :: batches' =>
      match fetch_abstracts batch with
      | inl e => inl e
      | inr batch_articles =>
          match fetch_all batches' with
          | inl e => inl e
          | inr articles => inr (batch_articles ++ articles)
          end
      end
  end.

(** The project type that goes with a template. *)
Definition category_of (t : template) : string :=
  match t with
  | HpvTemplate => "hpv_vaccine"
  | NcdTemplate => "ncd_screening"
  | DialysisTemplate => "dialysis"
  | MdrtbTemplate => "mdrtb"
  | AiTbTemplate => "ai_tb_cxr"
  end.

(** ** Notions for the proofs about the search-strings file *)

(** A line the loop passes over: empty, a comment, or a short line that
    does not name PubMed. *)
Definition passed_over (line : str) : bool :=
  skipped line ||
  (negb (contains (cps "pubmed") (lower line)) && (length line <=? 10)%nat).

(** The first of the given lines that, stripped, is neither empty nor a
    comment. *)
Fixpoint first_usable (ls : list str) : option str :=
  match ls with
  | [] => None
  | l :: ls' => if skipped (strip l) then first_usable ls' else Some (strip l)
  end.

(** The white space of ASCII, as [str.isspace] has it. *)
Definition ascii_space (c : N) : bool :=
  N.eqb c 32 || ((9 <=? c)%N && (c <=? 13)%N) || ((28 <=? c)%N && (c <=? 31)%N).

(** What a query read off the lines looks like: not empty, stripped, and a
    piece of one of the lines. *)
Definition query_like (lines : list str) (q : str) : Prop :=
  q <> [] /\ strip q = q /\
  exists raw, raw ∈ lines /\ contains q raw = true.

(** ** A sample service

    An answer with every element but the DOI, a search that finds two
    identifiers, a fetch that answers each identifier, and one that fails. *)

Definition sample_xml (id : str) : pubmed_xml :=
  PubmedXml (Some (Some id))
            (Some (Some (cps "HPV vaccine trial")))
            (Some (Some (cps "Efficacy was 85% and the cost was $12")))
            (Some (Some (cps "2019")))
            (Some (Some (cps "Vaccine")))
            None
            [(Some (Some (cps "Rao")), Some (Some (cps "Asha")))].

Definition sample_esearch (query : str) (max_results : nat)
  : unit + list str :=
  inr [cps "31452104"; cps "31452105"].

Definition sample_efetch (pmids : list str) : unit + list pubmed_xml :=
  inr (map sample_xml pmids).

Definition failing_efetch (pmids : list str) : unit + list pubmed_xml :=
  inl tt.

(** A disk on which every write goes well. *)
Definition sample_write_csv (name : string) (rows : list (gmap string pyval))
  : option unit :=
  None.

(** ** The matcher and the language of a pattern *)

Lemma star_ext body :
  body_ext body ->
  forall n s g k1 k2,
    (forall s' g', k1 s' g' = k2 s' g') -> star body n s g k1 = star body n s g k2.
Proof.
  intros Hb n. induction n as [|n IH]; intros s g k1 k2 Hk; simpl.
  - apply Hk.
  - rewrite (Hk s g). f_equal. apply Hb. intros s' g'.
    destruct (length s' <? length s)%nat; [apply IH; exact Hk | reflexivity].
Qed.

Lemma bt_ext r : body_ext (bt r).
Proof.
  induction r; intros s g k1 k2 Hk; simpl.
  - unfold one_char. destruct s; [reflexivity|]. destruct (_ =? _)%N; auto.
  - unfold one_char. destruct s; [reflexivity|]. destruct (existsb _ _); auto.
  - unfold one_char. destruct s; [reflexivity|]. destruct (is_decimal _); auto.
  - apply IHr1. intros s' g'. apply IHr2. exact Hk.
  - apply star_ext; assumption.
  - apply IHr. intros s' g'. apply star_ext; assumption.
  - rewrite (IHr s g k1 k2 Hk), (Hk s g). reflexivity.
  - apply IHr. intros s' g'. apply Hk.
Qed.

Lemma star_strict body :
  body_strict body ->
  forall n s g k, (forall s' g', k s' g' = None) -> star body n s g k = None.
Proof.
  intros Hb n. induction n as [|n IH]; intros s g k Hk; simpl.
  - apply Hk.
  - rewrite Hk, Hb; [reflexivity|]. intros s' g'.
    destruct (length s' <? length s)%nat; [apply IH; exact Hk | reflexivity].
Qed.

Lemma bt_strict r : body_strict (bt r).
Proof.
  induction r; intros s g k Hk; simpl.
  - unfold one_char. destruct s; [reflexivity|]. destruct (_ =? _)%N; auto.
  - unfold one_char. destruct s; [reflexivity|]. destruct (existsb _ _); auto.
  - unfold one_char. destruct s; [reflexivity|]. destruct (is_decimal _); auto.
  - apply IHr1. intros s' g'. apply IHr2. exact Hk.
  - apply star_strict; assumption.
  - apply IHr. intros s' g'. apply star_strict; assumption.
  - rewrite (IHr s g k Hk), (Hk s g). reflexivity.
  - apply IHr. intros s' g'. apply Hk.
Qed.

Lemma star_fuel body :
  body_ext body -> body_strict body ->
  forall n m s g k,
    (length s <= n)%nat -> (length s <= m)%nat ->
    star body n s g k = star body m s g k.
Proof.
  intros He Hs n. induction n as [|n IH]; intros m s g k Hn Hm.
  - destruct m as [|m]; [reflexivity|]. simpl.
    rewrite Hs; [reflexivity|]. intros s' g'.
    destruct (Nat.ltb_spec (length s') (length s)); [lia | reflexivity].
  - destruct m as [|m]; simpl.
    + rewrite Hs; [reflexivity|]. intros s' g'.
      destruct (Nat.ltb_spec (length s') (length s)); [lia | reflexivity].
    + f_equal. apply He. intros s' g'.
      destruct (Nat.ltb_spec (length s') (length s)); [|reflexivity].
      apply IH; lia.
Qed.


Lemma orelse_Some a b o :
  orelse a b = Some o -> a = Some o \/ (a = None /\ b = Some o).
Proof. destruct a; simpl; intros H; [left | right]; auto. Qed.

Lemma star_sound body r :
  body_sound body r -> forall n, body_sound (star body n) (Star r).
Proof.
  intros Hb n. induction n as [|n IH]; intros s g k o H; simpl in H.
  - exists [], s, g. repeat split; [constructor | exact H].
  - apply orelse_Some in H as [H | [_ H]].
    + apply Hb in H as (s1 & s2 & g1 & -> & Hl & H).
      destruct (length s2 <? length (s1 ++ s2))%nat; [|discriminate].
      apply IH in H as (s3 & s4 & g2 & -> & Hl2 & H).
      exists (s1 ++ s3), s4, g2. rewrite <- app_assoc.
      repeat split; [constructor; assumption | exact H].
    + exists [], s, g. repeat split; [constructor | exact H].
Qed.

Lemma one_char_Some p s g k o :
  one_char p s g k = Some o ->
  exists x s', s = x :: s' /\ p x = true /\ k s' g = Some o.
Proof.
  destruct s as [|x s']; simpl; [discriminate|].
  destruct (p x) eqn:E; [|discriminate]. eauto.
Qed.

Lemma bt_sound r : body_sound (bt r) r.
Proof.
  induction r; intros s g k o H; simpl in H.
  - apply one_char_Some in H as (x & s' & -> & E & H).
    apply N.eqb_eq in E as <-. exists [c], s', g.
    repeat split; [constructor | exact H].
  - apply one_char_Some in H as (x & s' & -> & E & H).
    exists [x], s', g. repeat split; [constructor; exact E | exact H].
  - apply one_char_Some in H as (x & s' & -> & E & H).
    exists [x], s', g. repeat split; [constructor; exact E | exact H].
  - apply IHr1 in H as (s1 & s2 & g1 & -> & Hl1 & H).
    apply IHr2 in H as (s3 & s4 & g2 & -> & Hl2 & H).
    exists (s1 ++ s3), s4, g2. rewrite <- app_assoc.
    repeat split; [constructor; assumption | exact H].
  - eapply star_sound; eassumption.
  - apply IHr in H as (s1 & s2 & g1 & -> & Hl1 & H).
    apply (star_sound _ _ IHr) in H as (s3 & s4 & g2 & -> & Hl2 & H).
    exists (s1 ++ s3), s4, g2. rewrite <- app_assoc.
    repeat split; [constructor; assumption | exact H].
  - apply orelse_Some in H as [H | [_ H]].
    + apply IHr in H as (s1 & s2 & g1 & -> & Hl & H).
      exists s1, s2, g1. repeat split; [constructor; assumption | exact H].
    + exists [], s, g. repeat split; [constructor | exact H].
  - apply IHr in H as (s1 & s2 & g1 & -> & Hl & H).
    exists s1, s2, (Some (take (length (s1 ++ s2) - length s2) (s1 ++ s2))).
    repeat split; [constructor; assumption | exact H].
Qed.

Lemma orelse_is_Some_l a b : is_Some a -> is_Some (orelse a b).
Proof. intros [o ->]. simpl. eauto. Qed.

Lemma orelse_is_Some_r a b : is_Some b -> is_Some (orelse a b).
Proof. destruct a; simpl; eauto. Qed.

Lemma bt_complete r s1 :
  lang r s1 ->
  forall s2 g k,
    (forall g', is_Some (k s2 g')) -> is_Some (bt r (s1 ++ s2) g k).
Proof.
  induction 1 as [c | cs c Hc | c Hc | r1 r2 s1 s2 _ IH1 _ IH2 | r
                 | r s1 s2 _ IH1 _ IH2 | r s1 s2 _ IH1 _ IH2 | r
                 | r s _ IH | r s _ IH];
    intros s3 g k Hk; simpl.
  - rewrite N.eqb_refl. apply Hk.
  - rewrite Hc. apply Hk.
  - rewrite Hc. apply Hk.
  - rewrite <- app_assoc. apply IH1. intros g'. apply IH2, Hk.
  - destruct (length s3); simpl; [apply Hk | apply orelse_is_Some_r, Hk].
  - destruct s1 as [|x s1]; [apply IH2, Hk|].
    rewrite <- app_assoc. simpl. apply orelse_is_Some_l.
    apply (IH1 (s2 ++ s3) g). intros g'.
    destruct (Nat.ltb_spec (length (s2 ++ s3)) (S (length (s1 ++ s2 ++ s3))));
      [|rewrite !length_app in *; lia].
    rewrite (star_fuel _ (bt_ext r) (bt_strict r) _ (length (s2 ++ s3)));
      [apply (IH2 s3 g' k Hk) | rewrite !length_app in *; lia | lia].
  - rewrite <- app_assoc. apply IH1. intros g'. apply (IH2 s3 g' k Hk).
  - apply orelse_is_Some_r, Hk.
  - apply orelse_is_Some_l, IH, Hk.
  - apply IH. intros _. apply Hk.
Qed.


Lemma search_Some r s o :
  search r s = Some o ->
  exists pre s',
    s = pre ++ s' /\ bt r s' None accept = Some o /\
    forall pre1 s1,
      s = pre1 ++ s1 -> (length pre1 < length pre)%nat ->
      bt r s1 None accept = None.
Proof.
  induction s as [|x s IH]; simpl.
  - destruct (bt r [] None accept) eqn:E; [|discriminate].
    intros [= ->]. exists [], []. repeat split; [exact E|].
    intros pre1 s1 _ Hlt. simpl in Hlt. lia.
  - destruct (bt r (x :: s) None accept) eqn:E.
    + intros [= ->]. exists [], (x :: s). repeat split; [exact E|].
      intros pre1 s1 _ Hlt. simpl in Hlt. lia.
    + intros H. apply IH in H as (pre & s' & -> & Hm & Hmin).
      exists (x :: pre), s'. repeat split; [exact Hm|].
      intros [|y pre1] s1 Heq Hlt; simpl in *.
      * subst s1. exact E.
      * injection Heq as -> Heq. apply (Hmin pre1 s1 Heq). lia.
Qed.

Lemma search_None r s :
  search r s = None ->
  forall pre1 s1, s = pre1 ++ s1 -> bt r s1 None accept = None.
Proof.
  induction s as [|x s IH]; simpl.
  - destruct (bt r [] None accept) eqn:E; [discriminate|].
    intros _ pre1 s1 Heq. symmetry in Heq.
    apply app_eq_nil in Heq as [_ ->]. exact E.
  - destruct (bt r (x :: s) None accept) eqn:E; [discriminate|].
    intros H [|y pre1] s1 Heq; simpl in *.
    + subst s1. exact E.
    + injection Heq as -> Heq. exact (IH H pre1 s1 Heq).
Qed.

Lemma search_None_iff r s : search r s = None <-> ~ occurs_in r s.
Proof.
  split.
  - intros H (pre & m & post & -> & Hl).
    pose proof (search_None _ _ H pre (m ++ post) eq_refl) as E.
    destruct (bt_complete _ _ Hl post None accept) as [o Ho].
    + intros g'. unfold accept. eauto.
    + congruence.
  - intros Hno. destruct (search r s) as [o|] eqn:E; [|reflexivity].
    exfalso. apply Hno.
    apply search_Some in E as (pre & s' & -> & Hm & _).
    apply bt_sound in Hm as (s1 & s2 & g' & -> & Hl & _).
    exists pre, s1, s2. split; [reflexivity | exact Hl].
Qed.

Lemma findall_from_head r s : forall fuel,
  (length s < fuel)%nat ->
  head (findall_from fuel r s) = (fun o => default [] (snd o)) <$> search r s.
Proof.
  induction s as [|x s IH]; intros [|fuel] Hf; simpl in *; try lia.
  - destruct (bt r [] None accept) as [[rest g]|]; reflexivity.
  - destruct (bt r (x :: s) None accept) as [[rest g]|]; [reflexivity|].
    apply IH. lia.
Qed.

Lemma findall_head r s :
  head (findall r s) = (fun o => default [] (snd o)) <$> search r s.
Proof. apply findall_from_head. lia. Qed.

(** ** The percentage pattern *)

Lemma lang_star_dig d :
  lang (Star Dig) d <-> Forall (fun c => is_decimal c = true) d.
Proof.
  split.
  - intros H. remember (Star Dig) as r eqn:Er.
    induction H; try discriminate; injection Er as ->.
    + constructor.
    + inversion H; subst. simpl. constructor; auto.
  - induction 1 as [|c d Hc _ IH]; [constructor|].
    apply (lang_star_iter Dig [c] d); [constructor; exact Hc | exact IH].
Qed.

Lemma lang_plus_dig d : lang (Plus Dig) d <-> digits d.
Proof.
  split.
  - intros H. inversion H as [| | | | | |r s1 s2 H1 H2| | |]; subst.
    inversion H1; subst. split; [discriminate|].
    constructor; [assumption|]. apply lang_star_dig, H2.
  - intros [Hne Hd]. destruct d as [|c d]; [congruence|].
    inversion Hd; subst.
    apply (lang_plus Dig [c] d); [constructor; assumption|].
    apply lang_star_dig. assumption.
Qed.

Lemma lang_number n : lang number_re n <-> unsigned_decimal n.
Proof.
  unfold number_re. split.
  - intros H. inversion H as [| | |r1 r2 s1 s2 H1 H2| | | | | |]; subst.
    apply lang_plus_dig in H1.
    inversion H2 as [| | | | | | |r|r s H3|]; subst.
    + rewrite app_nil_r. left. exact H1.
    + inversion H3 as [| | |r1 r2 s3 s4 H4 H5| | | | | |]; subst.
      inversion H4; subst. apply lang_plus_dig in H5.
      right. exists s1, s4. auto.
  - intros [Hd | (a & b & Ha & Hb & ->)].
    + rewrite <- (app_nil_r n). constructor; [apply lang_plus_dig, Hd|].
      constructor.
    + constructor; [apply lang_plus_dig, Ha|].
      apply lang_opt_take. apply (lang_cat (Chr 46) (Plus Dig) [46%N] b).
      * constructor.
      * apply lang_plus_dig, Hb.
Qed.

Lemma lang_percentage m :
  lang percentage_re m <-> exists n, unsigned_decimal n /\ m = n ++ [37%N].
Proof.
  unfold percentage_re. split.
  - intros H. inversion H as [| | |r1 r2 s1 s2 H1 H2| | | | | |]; subst.
    inversion H1; subst. inversion H2; subst.
    exists s1. split; [apply lang_number; assumption | reflexivity].
  - intros (n & Hn & ->). constructor; [|constructor].
    constructor. apply lang_number, Hn.
Qed.

(** What one attempt of the percentage pattern at the start of [s] yields. *)
Lemma bt_percentage s o :
  bt percentage_re s None accept = Some o ->
  exists n rest,
    s = n ++ [37%N] ++ rest /\ unsigned_decimal n /\ o = (rest, Some n).
Proof.
  unfold percentage_re. simpl bt. intros H.
  apply (bt_sound number_re) in H as (s1 & s2 & g' & -> & Hl & H).
  apply one_char_Some in H as (x & rest & -> & Hx & H).
  apply N.eqb_eq in Hx as <-. unfold accept in H. injection H as <-.
  exists s1, rest. split; [reflexivity|]. split; [apply lang_number, Hl|].
  f_equal. f_equal. rewrite length_app, Nat.add_sub.
  apply take_app_length.
Qed.

Lemma digits_no_char c d :
  is_decimal c = false -> Forall (fun x => is_decimal x = true) d -> c ∉ d.
Proof.
  intros Hc Hd Hin. rewrite Forall_forall in Hd.
  apply Hd in Hin. congruence.
Qed.

Lemma unsigned_decimal_no_percent n :
  is_decimal 37 = false -> unsigned_decimal n -> 37%N ∉ n.
Proof.
  intros H37 [[_ Hd] | (a & b & [_ Ha] & [_ Hb] & ->)].
  - apply digits_no_char; assumption.
  - rewrite !elem_of_app, list_elem_of_singleton.
    intros [Hin | [Hin | Hin]]; [|discriminate|];
      revert Hin; apply digits_no_char; assumption.
Qed.

Lemma first_occurrence (c : N) (n n' r r' : str) :
  c ∉ n -> c ∉ n' -> n ++ c :: r = n' ++ c :: r' -> n = n'.
Proof.
  revert n'. induction n as [|x n IH]; intros [|y n'] Hn Hn' E; simpl in E.
  - reflexivity.
  - injection E as -> _. exfalso. apply Hn'. left.
  - injection E as -> _. exfalso. apply Hn. left.
  - injection E as -> E. f_equal. apply IH; [| |exact E].
    + intros Hin. apply Hn. right. exact Hin.
    + intros Hin. apply Hn'. right. exact Hin.
Qed.

Lemma extract_percentage_search text :
  extract_percentage text =
  match search percentage_re text with
  | Some o => PStr (default [] (snd o))
  | None => PNone
  end.
Proof.
  unfold extract_percentage.
  pose proof (findall_head percentage_re text) as H.
  destruct (findall percentage_re text), (search percentage_re text);
    cbn in H; first [discriminate | injection H as ->; reflexivity | reflexivity].
Qed.

Lemma extract_percentage_PStr text n :
  extract_percentage text = PStr n ->
  exists pre post,
    text = pre ++ n ++ [37%N] ++ post /\ unsigned_decimal n /\
    forall pre' n' post',
      text = pre' ++ n' ++ [37%N] ++ post' -> unsigned_decimal n' ->
      (length pre <= length pre')%nat.
Proof.
  rewrite extract_percentage_search.
  destruct (search percentage_re text) as [o|] eqn:E; [|discriminate].
  apply search_Some in E as (pre & s' & -> & Hm & Hmin).
  apply bt_percentage in Hm as (n0 & rest & -> & Hn0 & ->). simpl.
  intros [= <-]. exists pre, rest. repeat split; [exact Hn0|].
  intros pre' n' post' Heq Hn'.
  destruct (Nat.le_gt_cases (length pre) (length pre')) as [|Hlt]; [assumption|].
  pose proof (Hmin pre' _ Heq Hlt) as Hnone.
  destruct (bt_complete percentage_re (n' ++ [37%N])
              (proj2 (lang_percentage _) (ex_intro _ n' (conj Hn' eq_refl)))
              post' None accept) as [o Ho].
  - intros g'. unfold accept. eauto.
  - rewrite <- app_assoc in Ho. change ([37%N] ++ post') with (37%N :: post') in Ho.
    rewrite Hnone in Ho. discriminate.
Qed.

Lemma extract_percentage_PNone text :
  extract_percentage text = PNone <-> ~ occurs_in percentage_re text.
Proof.
  rewrite extract_percentage_search, <- search_None_iff.
  destruct (search percentage_re text); split; congruence.
Qed.

Lemma extract_percentage_cases text :
  extract_percentage text = PNone \/ exists n, extract_percentage text = PStr n.
Proof.
  rewrite extract_percentage_search.
  destruct (search percentage_re text); eauto.
Qed.

Lemma extract_percentage_leftmost text pre n post :
  is_decimal 37 = false ->
  text = pre ++ n ++ [37%N] ++ post -> unsigned_decimal n ->
  (forall pre' n' post',
      text = pre' ++ n' ++ [37%N] ++ post' -> unsigned_decimal n' ->
      (length pre <= length pre')%nat) ->
  extract_percentage text = PStr n.
Proof.
  intros H37 Heq Hn Hmin.
  destruct (extract_percentage_cases text) as [E | [n0 E]].
  - exfalso. apply extract_percentage_PNone in E. apply E.
    exists pre, (n ++ [37%N]), post. split.
    + rewrite <- app_assoc. exact Heq.
    + apply lang_percentage. eauto.
  - rewrite E. f_equal.
    apply extract_percentage_PStr in E as (pre0 & post0 & Heq0 & Hn0 & Hmin0).
    pose proof (Hmin _ _ _ Heq0 Hn0) as Hle1.
    pose proof (Hmin0 _ _ _ Heq Hn) as Hle2.
    assert (Hlen : length pre0 = length pre) by lia.
    rewrite Heq in Heq0.
    apply app_inj_1 in Heq0 as [-> Heq0]; [|symmetry; exact Hlen].
    simpl in Heq0.
    eapply (first_occurrence 37%N); [| |exact (eq_sym Heq0)];
      apply unsigned_decimal_no_percent; assumption.
Qed.

(** ** The loop *)

Lemma for_each_acc pt arts : forall acc,
  for_each (loop_body pt) arts acc =
  try out := for_each (loop_body pt) arts [] in Ok (acc ++ out).
Proof.
  induction arts as [|[a|] arts IH]; intros acc; simpl.
  - rewrite app_nil_r. reflexivity.
  - destruct (data_point_of pt a) as [dp|e]; simpl; [|reflexivity].
    destruct (4 <? size dp)%nat.
    + cbn [bind]. rewrite (IH (acc ++ [dp])), (IH [dp]).
      destruct (for_each (loop_body pt) arts []); simpl; [|reflexivity].
      rewrite <- app_assoc. reflexivity.
    + apply IH.
  - apply IH.
Qed.

Lemma extract_relevant_data_nil pt : extract_relevant_data [] pt = Ok [].
Proof. reflexivity. Qed.

Lemma extract_relevant_data_skip arts pt :
  extract_relevant_data (None :: arts) pt = extract_relevant_data arts pt.
Proof. reflexivity. Qed.

Lemma extract_relevant_data_cons a arts pt :
  extract_relevant_data (Some a :: arts) pt =
  try data_point := data_point_of pt a in
  try rest := extract_relevant_data arts pt in
  Ok ((if (4 <? size data_point)%nat then [data_point] else []) ++ rest).
Proof.
  unfold extract_relevant_data. simpl.
  destruct (data_point_of pt a) as [dp|e]; simpl; [|reflexivity].
  destruct (4 <? size dp)%nat; [|simpl].
  - apply for_each_acc.
  - destruct (for_each (loop_body pt) arts []); reflexivity.
Qed.

Lemma extract_relevant_data_app arts1 arts2 pt :
  extract_relevant_data (arts1 ++ arts2) pt =
  try out1 := extract_relevant_data arts1 pt in
  try out2 := extract_relevant_data arts2 pt in
  Ok (out1 ++ out2).
Proof.
  induction arts1 as [|[a|] arts1 IH]; cbn [app].
  - rewrite extract_relevant_data_nil. cbn [bind].
    destruct (extract_relevant_data arts2 pt); reflexivity.
  - rewrite !extract_relevant_data_cons, IH.
    destruct (data_point_of pt a) as [dp|e]; cbn [bind]; [|reflexivity].
    destruct (extract_relevant_data arts1 pt); cbn [bind]; [|reflexivity].
    destruct (extract_relevant_data arts2 pt); cbn [bind]; [|reflexivity].
    rewrite app_assoc. reflexivity.
  - rewrite !extract_relevant_data_skip. exact IH.
Qed.

(** ** The data point of one record *)

Lemma lowered_text a key :
  text_or_none (dict_get a key) = true ->
  lowered a key = Ok (lower (text_of (dict_get a key))).
Proof.
  unfold lowered. destruct (dict_get a key) as [|[|c s]|z]; simpl;
    try discriminate; reflexivity.
Qed.

Lemma data_point_of_well_typed pt a :
  well_typed a ->
  data_point_of pt a =
  Ok (project_fields pt (lower (text_of (dict_get a "abstract"))) (baseline a)).
Proof.
  intros [Ht Ha]. unfold data_point_of.
  rewrite (lowered_text _ _ Ha), (lowered_text _ _ Ht). reflexivity.
Qed.

Lemma data_point_of_Ok pt a dp :
  data_point_of pt a = Ok dp ->
  exists abstract,
    lowered a "abstract" = Ok abstract /\
    dp = project_fields pt abstract (baseline a).
Proof.
  unfold data_point_of.
  destruct (lowered a "abstract") as [abs|]; cbn [bind]; [|discriminate].
  destruct (lowered a "title"); cbn [bind]; [|discriminate].
  intros [= <-]. eauto.
Qed.

Lemma project_fields_rules pt abstract dp :
  project_fields pt abstract dp = apply_rules abstract (spec_rules pt) dp.
Proof.
  unfold project_fields, spec_rules, apply_rules, apply_rule, fires.
  repeat match goal with
         | |- context [String.eqb pt ?s] => destruct (String.eqb pt s)
         end;
    cbn [fold_left triggers field how extract existsb];
    rewrite ?orb_false_r; reflexivity.
Qed.

(** ** Rules and fields *)

Lemma spec_rules_fields pt : NoDup ((field <$> spec_rules pt) ++ baseline_keys).
Proof.
  unfold spec_rules.
  repeat match goal with
         | |- context [String.eqb pt ?s] => destruct (String.eqb pt s)
         end;
    apply (bool_decide_unpack _); vm_compute; exact I.
Qed.

Lemma spec_rules_NoDup pt : NoDup (field <$> spec_rules pt).
Proof. exact (proj1 (proj1 (NoDup_app _ _) (spec_rules_fields pt))). Qed.

Lemma spec_rules_fresh pt r :
  r ∈ spec_rules pt -> field r ∉ baseline_keys.
Proof.
  intros Hr.
  apply (proj1 (proj2 (proj1 (NoDup_app _ _) (spec_rules_fields pt)))).
  apply list_elem_of_fmap. eauto.
Qed.

Lemma spec_rules_unrecognized pt : pt ∉ recognized -> spec_rules pt = [].
Proof.
  intros Hpt. unfold spec_rules.
  repeat match goal with
         | |- context [String.eqb pt ?s] =>
             destruct (String.eqb_spec pt s) as [->|_];
             [exfalso; apply Hpt; unfold recognized; set_solver|]
         end.
  reflexivity.
Qed.

Lemma apply_rules_cons abstract r rs dp :
  apply_rules abstract (r :: rs) dp =
  apply_rules abstract rs (apply_rule abstract dp r).
Proof. reflexivity. Qed.

Lemma apply_rules_lookup_other abstract rs : forall dp k,
  k ∉ field <$> rs -> apply_rules abstract rs dp !! k = dp !! k.
Proof.
  induction rs as [|r rs IH]; intros dp k Hk; [reflexivity|].
  rewrite fmap_cons, not_elem_of_cons in Hk. destruct Hk as [Hne Hk].
  rewrite apply_rules_cons. rewrite (IH _ _ Hk).
  unfold apply_rule, set_if. destruct (fires abstract r); [|reflexivity].
  apply lookup_insert_ne. congruence.
Qed.

Lemma apply_rules_lookup abstract rs : forall dp r,
  NoDup (field <$> rs) -> r ∈ rs ->
  apply_rules abstract rs dp !! field r =
  if fires abstract r then Some (extract (how r) abstract) else dp !! field r.
Proof.
  induction rs as [|r0 rs IH]; intros dp r Hnd Hr.
  - apply elem_of_nil in Hr as [].
  - rewrite fmap_cons, NoDup_cons in Hnd. destruct Hnd as [Hfresh Hnd].
    rewrite apply_rules_cons.
    apply elem_of_cons in Hr as [-> | Hr].
    + rewrite (apply_rules_lookup_other abstract rs _ _ Hfresh).
      unfold apply_rule, set_if. destruct (fires abstract r0); [|reflexivity].
      apply lookup_insert_eq.
    + rewrite (IH _ _ Hnd Hr). destruct (fires abstract r); [reflexivity|].
      unfold apply_rule, set_if. destruct (fires abstract r0); [|reflexivity].
      apply lookup_insert_ne. intros E. apply Hfresh.
      rewrite E. apply list_elem_of_fmap. eauto.
Qed.

Lemma apply_rules_size abstract rs : forall dp,
  NoDup (field <$> rs) -> (forall r, r ∈ rs -> dp !! field r = None) ->
  size (apply_rules abstract rs dp) =
  (size dp + length (List.filter (fires abstract) rs))%nat.
Proof.
  induction rs as [|r0 rs IH]; intros dp Hnd Hdp.
  - simpl. lia.
  - rewrite fmap_cons, NoDup_cons in Hnd. destruct Hnd as [Hfresh Hnd].
    rewrite apply_rules_cons. cbn [List.filter]. rewrite IH; [|exact Hnd|].
    + unfold apply_rule, set_if. destruct (fires abstract r0); [|reflexivity].
      rewrite map_size_insert_None; [simpl; lia|].
      apply Hdp. left.
    + intros r Hr. unfold apply_rule, set_if.
      destruct (fires abstract r0); [|apply Hdp; right; exact Hr].
      rewrite lookup_insert_ne; [apply Hdp; right; exact Hr|].
      intros E. apply Hfresh. rewrite E. apply list_elem_of_fmap. eauto.
Qed.

Lemma baseline_lookup a k :
  baseline a !! k =
  if bool_decide (k ∈ baseline_keys) then Some (dict_get a k) else None.
Proof.
  unfold baseline, baseline_keys.
  destruct (decide (k = "doi")) as [->|Hd]; [apply lookup_insert_eq|].
  rewrite lookup_insert_ne by congruence.
  destruct (decide (k = "year")) as [->|Hy]; [apply lookup_insert_eq|].
  rewrite lookup_insert_ne by congruence.
  destruct (decide (k = "title")) as [->|Ht]; [apply lookup_insert_eq|].
  rewrite lookup_insert_ne by congruence.
  destruct (decide (k = "pmid")) as [->|Hp]; [apply lookup_insert_eq|].
  rewrite lookup_insert_ne by congruence.
  rewrite lookup_empty, bool_decide_eq_false_2; [reflexivity|].
  rewrite !elem_of_cons, elem_of_nil. tauto.
Qed.

Lemma baseline_size a : size (baseline a) = 4%nat.
Proof.
  unfold baseline.
  rewrite !map_size_insert_None, map_size_empty; [reflexivity|..];
    repeat (rewrite lookup_insert_ne by discriminate); apply lookup_empty.
Qed.

(** ** The fields of a data point *)

Lemma project_fields_size pt abstract a :
  size (project_fields pt abstract (baseline a)) =
  (4 + length (List.filter (fires abstract) (spec_rules pt)))%nat.
Proof.
  rewrite project_fields_rules, apply_rules_size, baseline_size;
    [reflexivity | apply spec_rules_NoDup |].
  intros r Hr. rewrite baseline_lookup, bool_decide_eq_false_2; [reflexivity|].
  apply spec_rules_fresh with pt. exact Hr.
Qed.

Lemma project_fields_baseline pt abstract a k :
  k ∈ baseline_keys ->
  project_fields pt abstract (baseline a) !! k = Some (dict_get a k).
Proof.
  intros Hk. rewrite project_fields_rules, apply_rules_lookup_other.
  - rewrite baseline_lookup, bool_decide_eq_true_2; [reflexivity | exact Hk].
  - intros Hin. apply list_elem_of_fmap in Hin as (r & -> & Hr).
    exact (spec_rules_fresh pt r Hr Hk).
Qed.

Lemma project_fields_rule pt abstract a r :
  r ∈ spec_rules pt ->
  project_fields pt abstract (baseline a) !! field r =
  if fires abstract r then Some (extract (how r) abstract) else None.
Proof.
  intros Hr.
  rewrite project_fields_rules, apply_rules_lookup;
    [|apply spec_rules_NoDup | exact Hr].
  destruct (fires abstract r); [reflexivity|].
  rewrite baseline_lookup, bool_decide_eq_false_2; [reflexivity|].
  apply spec_rules_fresh with pt. exact Hr.
Qed.

Lemma project_fields_other pt abstract a k :
  k ∉ baseline_keys -> k ∉ field <$> spec_rules pt ->
  project_fields pt abstract (baseline a) !! k = None.
Proof.
  intros Hb Hf. rewrite project_fields_rules, apply_rules_lookup_other by exact Hf.
  rewrite baseline_lookup, bool_decide_eq_false_2; [reflexivity | exact Hb].
Qed.

(** A key of a data point is a baseline key or the field of a rule of the
    active category that fired. *)
Lemma project_fields_key pt abstract a k :
  is_Some (project_fields pt abstract (baseline a) !! k) ->
  k ∈ baseline_keys \/
  exists r, r ∈ spec_rules pt /\ field r = k /\ fires abstract r = true.
Proof.
  intros Hk.
  destruct (decide (k ∈ baseline_keys)) as [|Hb]; [left; assumption|].
  destruct (decide (k ∈ field <$> spec_rules pt)) as [Hf|Hf].
  - apply list_elem_of_fmap in Hf as (r & -> & Hr).
    rewrite (project_fields_rule _ _ _ _ Hr) in Hk.
    destruct (fires abstract r) eqn:E; [|destruct Hk; discriminate].
    right. eauto.
  - rewrite (project_fields_other _ _ _ _ Hb Hf) in Hk.
    destruct Hk; discriminate.
Qed.

Lemma filter_fires_nonempty abstract rs :
  (0 < length (List.filter (fires abstract) rs))%nat <->
  exists r, r ∈ rs /\ fires abstract r = true.
Proof.
  induction rs as [|r rs IH]; simpl.
  - split; [lia | intros (r & Hr & _); apply elem_of_nil in Hr as []].
  - destruct (fires abstract r) eqn:E; simpl.
    + split; [intros _; exists r; split; [left | exact E] | lia].
    + rewrite IH. split.
      * intros (r' & Hr' & E'). exists r'. split; [right|]; assumption.
      * intros (r' & Hr' & E'). apply elem_of_cons in Hr' as [-> | Hr'];
          [congruence | eauto].
Qed.

(** More than four fields: a rule of the category fired, that is, the data
    point has a key beyond the baseline. *)
Lemma project_fields_more_than_four pt abstract a :
  (4 < size (project_fields pt abstract (baseline a)))%nat <->
  exists k, ~ k ∈ baseline_keys /\
            is_Some (project_fields pt abstract (baseline a) !! k).
Proof.
  rewrite project_fields_size.
  transitivity (0 < length (List.filter (fires abstract) (spec_rules pt)))%nat;
    [lia|].
  rewrite filter_fires_nonempty. split.
  - intros (r & Hr & E). exists (field r). split.
    + apply spec_rules_fresh with pt. exact Hr.
    + rewrite (project_fields_rule _ _ _ _ Hr), E. eauto.
  - intros (k & Hb & Hk). apply project_fields_key in Hk as [Hk | (r & ? & ? & ?)];
      [contradiction | eauto].
Qed.

(** ** The [in] test *)

Lemma starts_with_spec needle hay :
  starts_with needle hay = true <-> exists post, hay = needle ++ post.
Proof.
  revert hay. induction needle as [|x needle IH]; intros [|y hay]; simpl.
  - split; [eauto | reflexivity].
  - split; [eauto | reflexivity].
  - split; [discriminate | intros [post [=]]].
  - rewrite andb_true_iff, N.eqb_eq, IH. split.
    + intros [-> [post ->]]. eauto.
    + intros [post [= -> ->]]. eauto.
Qed.

Lemma contains_spec needle hay :
  contains needle hay = true <-> exists pre post, hay = pre ++ needle ++ post.
Proof.
  induction hay as [|y hay IH]; simpl.
  - rewrite orb_false_r, starts_with_spec. split.
    + intros [post ->]. exists [], post. reflexivity.
    + intros ([|] & post & E); [eauto | discriminate].
  - rewrite orb_true_iff, starts_with_spec, IH. split.
    + intros [[post ->] | (pre & post & ->)]; [exists [], post | exists (y :: pre), post];
        reflexivity.
    + intros ([|z pre] & post & E); simpl in E.
      * left. eauto.
      * injection E as -> ->. right. eauto.
Qed.

Lemma contains_weaken n1 n2 n3 hay :
  contains (n1 ++ n2 ++ n3) hay = true -> contains n2 hay = true.
Proof.
  rewrite !contains_spec. intros (pre & post & ->).
  exists (pre ++ n1), (n3 ++ post). rewrite <- !app_assoc. reflexivity.
Qed.

(** ** The currency pattern *)

Lemma extract_cost_search text :
  extract_cost text =
  match search cost_re text with
  | Some o => PStr (remove_char 44 (default [] (snd o)))
  | None => PNone
  end.
Proof.
  unfold extract_cost.
  pose proof (findall_head cost_re text) as H.
  destruct (findall cost_re text), (search cost_re text);
    cbn in H; first [discriminate | injection H as ->; reflexivity | reflexivity].
Qed.

Lemma extract_cost_PNone text :
  extract_cost text = PNone <-> ~ occurs_in cost_re text.
Proof.
  rewrite extract_cost_search, <- search_None_iff.
  destruct (search cost_re text); split; congruence.
Qed.

Lemma extract_PNone k text :
  extract k text = PNone <-> ~ occurs_in (pattern_of k) text.
Proof.
  destruct k; [apply extract_percentage_PNone | apply extract_cost_PNone].
Qed.

(** ** Retention *)

Lemma bind_Ok {A B : Type} (m : result A) (f : A -> result B) b :
  bind m f = Ok b -> exists a, m = Ok a /\ f a = Ok b.
Proof. destruct m as [a|e]; simpl; [eauto | discriminate]. Qed.

Lemma extract_relevant_data_cons_Ok a arts pt out :
  extract_relevant_data (Some a :: arts) pt = Ok out ->
  exists dp rest,
    data_point_of pt a = Ok dp /\ extract_relevant_data arts pt = Ok rest /\
    out = (if (4 <? size dp)%nat then [dp] else []) ++ rest.
Proof.
  rewrite extract_relevant_data_cons. intros H.
  apply bind_Ok in H as (dp & Hdp & H).
  apply bind_Ok in H as (rest & Hrest & H).
  injection H as <-. eauto.
Qed.

Lemma data_point_of_more_than_four pt a dp :
  data_point_of pt a = Ok dp ->
  (4 < size dp)%nat <-> exists k, ~ k ∈ baseline_keys /\ is_Some (dp !! k).
Proof.
  intros H. apply data_point_of_Ok in H as (abstract & _ & ->).
  apply project_fields_more_than_four.
Qed.

Lemma extract_relevant_data_elem articles pt : forall out,
  extract_relevant_data articles pt = Ok out ->
  forall dp,
    dp ∈ out <->
    exists a, Some a ∈ articles /\ data_point_of pt a = Ok dp /\
              (4 < size dp)%nat.
Proof.
  induction articles as [|[a|] arts IH]; intros out H dp.
  - rewrite extract_relevant_data_nil in H. injection H as <-.
    split; [intros Hin; apply elem_of_nil in Hin as [] |].
    intros (a & Hin & _). apply elem_of_nil in Hin as [].
  - apply extract_relevant_data_cons_Ok in H as (dp0 & rest & Hdp0 & Hrest & ->).
    rewrite elem_of_app, (IH rest Hrest dp). split.
    + intros [Hin | (a' & Hin & Hdp & Hsz)].
      * destruct (Nat.ltb_spec 4 (size dp0)) as [Hsz|];
          [|apply elem_of_nil in Hin as []].
        apply list_elem_of_singleton in Hin as ->.
        exists a. split; [left | auto].
      * exists a'. split; [right; exact Hin | auto].
    + intros (a' & Hin & Hdp & Hsz).
      apply elem_of_cons in Hin as [[= ->] | Hin].
      * left. rewrite Hdp0 in Hdp. injection Hdp as ->.
        destruct (Nat.ltb_spec 4 (size dp)); [left | lia].
      * right. eauto.
  - rewrite extract_relevant_data_skip in H. rewrite (IH out H dp). split.
    + intros (a' & Hin & Hdp & Hsz). exists a'. split; [right; exact Hin | auto].
    + intros (a' & Hin & Hdp & Hsz).
      apply elem_of_cons in Hin as [[=] | Hin]. eauto.
Qed.

(** The test of the loop: a data point is in the output exactly when the
    record it was built from gave it more than four keys, and it has more
    than four keys exactly when it has a key beyond the four baseline ones,
    whatever that key holds. *)
Theorem retained_iff_more_than_four_fields articles pt out :
  extract_relevant_data articles pt = Ok out ->
  (forall dp,
      dp ∈ out <->
      exists a, Some a ∈ articles /\ data_point_of pt a = Ok dp /\
                (4 < size dp)%nat) /\
  (forall a dp,
      data_point_of pt a = Ok dp ->
      (4 < size dp)%nat <->
      exists k, ~ k ∈ baseline_keys /\ is_Some (dp !! k)).
Proof.
  intros H. split.
  - apply extract_relevant_data_elem, H.
  - intros a dp. apply data_point_of_more_than_four.
Qed.

(** C6: the output lists, in the order of the input, the data points of a
    subsequence of the input records, one data point for each. *)
Theorem output_preserves_input_order articles pt out :
  extract_relevant_data articles pt = Ok out ->
  exists kept,
    (Some <$> kept) `sublist_of` articles /\
    Forall2 (fun a dp => data_point_of pt a = Ok dp) kept out.
Proof.
  revert out. induction articles as [|[a|] arts IH]; intros out H.
  - rewrite extract_relevant_data_nil in H. injection H as <-.
    exists []. split; constructor.
  - apply extract_relevant_data_cons_Ok in H as (dp & rest & Hdp & Hrest & ->).
    destruct (IH rest Hrest) as (kept & Hsub & Hall).
    destruct (4 <? size dp)%nat.
    + exists (a :: kept). split; [apply sublist_skip, Hsub|].
      constructor; assumption.
    + exists kept. split; [apply sublist_cons, Hsub | exact Hall].
  - rewrite extract_relevant_data_skip in H.
    destruct (IH out H) as (kept & Hsub & Hall).
    exists kept. split; [apply sublist_cons, Hsub | exact Hall].
Qed.

(** ** Well-typed batches *)

Lemma extract_relevant_data_total articles pt :
  (forall a, Some a ∈ articles -> well_typed a) ->
  exists out, extract_relevant_data articles pt = Ok out.
Proof.
  induction articles as [|[a|] arts IH]; intros Hwt.
  - exists []. reflexivity.
  - destruct IH as [rest Hrest]; [intros a' Hin; apply Hwt; right; exact Hin|].
    rewrite extract_relevant_data_cons, data_point_of_well_typed, Hrest;
      [|apply Hwt; left].
    cbn [bind]. eauto.
  - rewrite extract_relevant_data_skip. apply IH.
    intros a' Hin. apply Hwt. right. exact Hin.
Qed.

(** C5: under a category that is none of the five recognized ones no rule
    applies, every data point has its four baseline fields only, and the
    output is empty. *)
Theorem unrecognized_category_yields_nothing articles pt :
  ~ pt ∈ recognized ->
  (forall a, Some a ∈ articles -> well_typed a) ->
  spec_rules pt = [] /\
  (forall a dp, data_point_of pt a = Ok dp -> dp = baseline a /\ size dp = 4%nat) /\
  extract_relevant_data articles pt = Ok [].
Proof.
  intros Hpt Hwt. pose proof (spec_rules_unrecognized pt Hpt) as Hr.
  assert (Hdp : forall a dp,
             data_point_of pt a = Ok dp -> dp = baseline a /\ size dp = 4%nat).
  { intros a dp H. apply data_point_of_Ok in H as (abstract & _ & ->).
    rewrite project_fields_rules, Hr. split; [reflexivity | apply baseline_size]. }
  split; [exact Hr|]. split; [exact Hdp|].
  induction articles as [|[a|] arts IH].
  - reflexivity.
  - rewrite extract_relevant_data_cons, data_point_of_well_typed, IH.
    + cbn [bind]. rewrite project_fields_size, Hr. reflexivity.
    + intros a' Hin. apply Hwt. right. exact Hin.
    + apply Hwt. left.
  - rewrite extract_relevant_data_skip. apply IH.
    intros a' Hin. apply Hwt. right. exact Hin.
Qed.

Lemma fires_nil pt : List.filter (fires []) (spec_rules pt) = [].
Proof.
  unfold spec_rules.
  repeat match goal with
         | |- context [String.eqb pt ?s] => destruct (String.eqb pt s)
         end;
    reflexivity.
Qed.

Lemma blank_text v :
  blank v = true -> text_or_none v = true /\ text_of v = [].
Proof. destruct v as [|[|c s]|z]; simpl; try discriminate; auto. Qed.

Lemma blank_record_dropped pt a :
  lower [] = [] ->
  blank (dict_get a "title") = true -> blank (dict_get a "abstract") = true ->
  exists dp, data_point_of pt a = Ok dp /\ (4 <? size dp)%nat = false.
Proof.
  intros Hlow Ht Ha.
  apply blank_text in Ht as [Ht _]. apply blank_text in Ha as [Ha Hempty].
  rewrite data_point_of_well_typed by (split; assumption).
  eexists. split; [reflexivity|].
  rewrite Hempty, Hlow, project_fields_size, fires_nil. reflexivity.
Qed.

(** C8: on a batch whose records hold strings or [None] (or nothing) as
    title and abstract the extractor returns a list and does not raise; a
    record whose title and abstract are empty leaves no trace in the
    output. *)
Theorem never_raises_and_drops_empty_text articles pt :
  lower_ok lower ->
  (forall a, Some a ∈ articles -> well_typed a) ->
  (exists out, extract_relevant_data articles pt = Ok out) /\
  (forall pre a post,
      articles = pre ++ Some a :: post ->
      blank (dict_get a "title") = true ->
      blank (dict_get a "abstract") = true ->
      extract_relevant_data articles pt =
      extract_relevant_data (pre ++ post) pt).
Proof.
  intros Hlow Hwt. split; [apply extract_relevant_data_total, Hwt|].
  intros pre a post -> Ht Ha.
  destruct (blank_record_dropped pt a (Hlow [] eq_refl) Ht Ha) as (dp & Hdp & Hsz).
  rewrite !extract_relevant_data_app, extract_relevant_data_cons, Hdp.
  cbn [bind]. rewrite Hsz.
  destruct (extract_relevant_data pre pt); cbn [bind]; [|reflexivity].
  destruct (extract_relevant_data post pt); reflexivity.
Qed.

(** ** What a data point takes from its record *)

Lemma lowered_abstract_eq a1 a2 :
  dict_get a1 "abstract" = dict_get a2 "abstract" ->
  lowered a1 "abstract" = lowered a2 "abstract".
Proof. unfold lowered. intros ->. reflexivity. Qed.

Lemma project_fields_metric pt abstract a1 a2 k :
  ~ k ∈ baseline_keys ->
  project_fields pt abstract (baseline a1) !! k =
  project_fields pt abstract (baseline a2) !! k.
Proof.
  intros Hb. destruct (decide (k ∈ field <$> spec_rules pt)) as [Hf|Hf].
  - apply list_elem_of_fmap in Hf as (r & -> & Hr).
    rewrite !(project_fields_rule _ _ _ _ Hr). reflexivity.
  - rewrite !project_fields_other by assumption. reflexivity.
Qed.

(** C9: a data point of the output carries the identifier, title, year and
    DOI of its record as they are, and its other fields and their number
    are decided by the abstract of the record alone. *)
Theorem baseline_verbatim_metrics_from_abstract articles pt out :
  extract_relevant_data articles pt = Ok out ->
  (forall dp,
      dp ∈ out ->
      exists a, Some a ∈ articles /\ data_point_of pt a = Ok dp /\
                forall k, k ∈ baseline_keys -> dp !! k = Some (dict_get a k)) /\
  (forall a1 a2 dp1 dp2,
      dict_get a1 "abstract" = dict_get a2 "abstract" ->
      data_point_of pt a1 = Ok dp1 -> data_point_of pt a2 = Ok dp2 ->
      (forall k, ~ k ∈ baseline_keys -> dp1 !! k = dp2 !! k) /\
      size dp1 = size dp2).
Proof.
  intros H. split.
  - intros dp Hin.
    apply (extract_relevant_data_elem _ _ _ H) in Hin as (a & Ha & Hdp & _).
    exists a. split; [exact Ha|]. split; [exact Hdp|].
    apply data_point_of_Ok in Hdp as (abstract & _ & ->).
    intros k Hk. apply project_fields_baseline, Hk.
  - intros a1 a2 dp1 dp2 Heq H1 H2.
    apply data_point_of_Ok in H1 as (abs1 & Habs1 & ->).
    apply data_point_of_Ok in H2 as (abs2 & Habs2 & ->).
    rewrite (lowered_abstract_eq _ _ Heq), Habs2 in Habs1.
    injection Habs1 as ->. split.
    + intros k Hk. apply project_fields_metric, Hk.
    + rewrite !project_fields_size. reflexivity.
Qed.

(** C10: two percentage rules of the active category that both fire on a
    record store the same value, the first percentage of the whole
    abstract. *)
Theorem percentage_rules_share_value pt a abstract dp r1 r2 :
  lowered a "abstract" = Ok abstract ->
  data_point_of pt a = Ok dp ->
  r1 ∈ spec_rules pt -> r2 ∈ spec_rules pt ->
  how r1 = Percentage -> how r2 = Percentage ->
  fires abstract r1 = true -> fires abstract r2 = true ->
  dp !! field r1 = Some (extract_percentage abstract) /\
  dp !! field r2 = dp !! field r1.
Proof.
  intros Habs Hdp Hr1 Hr2 Hk1 Hk2 Hf1 Hf2.
  apply data_point_of_Ok in Hdp as (abs' & Habs' & ->).
  rewrite Habs in Habs'. injection Habs' as <-.
  rewrite (project_fields_rule _ _ _ _ Hr1), (project_fields_rule _ _ _ _ Hr2).
  rewrite Hf1, Hf2, Hk1, Hk2. split; reflexivity.
Qed.

(** C2, as amended: when a rule of the active category fires on a record
    whose lower-cased abstract has no substring matching the pattern of the
    rule, the field of the rule is present in the data point and holds
    [None]. *)
Theorem trigger_without_number_stores_None pt a abstract dp r :
  lowered a "abstract" = Ok abstract ->
  data_point_of pt a = Ok dp ->
  r ∈ spec_rules pt ->
  fires abstract r = true ->
  ~ occurs_in (pattern_of (how r)) abstract ->
  dp !! field r = Some PNone.
Proof.
  intros Habs Hdp Hr Hf Hno.
  apply data_point_of_Ok in Hdp as (abs' & Habs' & ->).
  rewrite Habs in Habs'. injection Habs' as <-.
  rewrite (project_fields_rule _ _ _ _ Hr), Hf.
  f_equal. apply extract_PNone, Hno.
Qed.

(** ** Category isolation *)

Lemma ascii_decimal_lt c : ascii_decimal c = true -> (c < 128)%N.
Proof.
  unfold ascii_decimal. rewrite andb_true_iff, !N.leb_le. lia.
Qed.

Lemma digits_ascii d :
  decimal_ok is_decimal ->
  d <> [] -> forallb ascii_decimal d = true -> digits d.
Proof.
  intros Hok Hne Hd. split; [exact Hne|].
  apply Forall_forall. intros c Hc.
  rewrite forallb_forall in Hd. specialize (Hd c).
  rewrite <- list_elem_of_In in Hd. specialize (Hd Hc).
  rewrite (Hok c (ascii_decimal_lt c Hd)). exact Hd.
Qed.

Lemma percentage_after_keyword kw num abstract :
  decimal_ok is_decimal ->
  num <> [] -> forallb ascii_decimal num = true ->
  contains (kw ++ num ++ [37%N]) abstract = true ->
  contains kw abstract = true /\
  exists v, extract_percentage abstract = PStr v.
Proof.
  intros Hok Hne Hd Hc. split.
  - apply (contains_weaken [] kw (num ++ [37%N])). exact Hc.
  - destruct (extract_percentage_cases abstract) as [E|E]; [|exact E].
    exfalso. apply extract_percentage_PNone in E. apply E.
    apply contains_spec in Hc as (pre & post & ->).
    exists (pre ++ kw), (num ++ [37%N]), post. split.
    + rewrite <- !app_assoc. reflexivity.
    + apply lang_percentage. exists num. split; [|reflexivity].
      left. apply digits_ascii; assumption.
Qed.

(** C7: an abstract with both "sensitivity: 80%" and "efficacy: 70%" gets an
    efficacy field and no sensitivity field under hpv_vaccine, a
    sensitivity field and no efficacy field under ncd_screening; and under
    any category a field of a data point is a baseline field or the field of
    a rule of that category that fired. *)
Theorem category_isolation a abstract dp_hpv dp_ncd :
  decimal_ok is_decimal ->
  lowered a "abstract" = Ok abstract ->
  contains (cps "sensitivity: 80%") abstract = true ->
  contains (cps "efficacy: 70%") abstract = true ->
  data_point_of "hpv_vaccine" a = Ok dp_hpv ->
  data_point_of "ncd_screening" a = Ok dp_ncd ->
  ((exists v, dp_hpv !! "efficacy" = Some (PStr v)) /\
   dp_hpv !! "sensitivity" = None) /\
  ((exists v, dp_ncd !! "sensitivity" = Some (PStr v)) /\
   dp_ncd !! "efficacy" = None) /\
  (forall pt dp k,
      data_point_of pt a = Ok dp -> is_Some (dp !! k) ->
      k ∈ baseline_keys \/
      exists r, r ∈ spec_rules pt /\ field r = k /\ fires abstract r = true).
Proof.
  intros Hok Habs Hs He Hh Hn.
  destruct (percentage_after_keyword (cps "sensitivity: ") (cps "80") abstract
              Hok ltac:(discriminate) eq_refl Hs) as [Hks [v Hv]].
  destruct (percentage_after_keyword (cps "efficacy: ") (cps "70") abstract
              Hok ltac:(discriminate) eq_refl He) as [Hke _].
  apply (contains_weaken [] (cps "sensitivity") (cps ": ")) in Hks.
  apply (contains_weaken [] (cps "efficacy") (cps ": ")) in Hke.
  apply data_point_of_Ok in Hh as (abs1 & Habs1 & ->).
  apply data_point_of_Ok in Hn as (abs2 & Habs2 & ->).
  rewrite Habs in Habs1, Habs2. injection Habs1 as <-. injection Habs2 as <-.
  split; [|split].
  - split.
    + exists v.
      pose proof (project_fields_rule "hpv_vaccine" abstract a
                    (Rule ["efficacy"; "effectiveness"] "efficacy" Percentage)
                    ltac:(vm_compute; left)) as Hr.
      unfold fires in Hr. cbn [triggers existsb how extract field] in Hr.
      unfold has in Hr. rewrite Hke, Hv in Hr. exact Hr.
    + apply project_fields_other; apply (bool_decide_unpack _); vm_compute; exact I.
  - split.
    + exists v.
      pose proof (project_fields_rule "ncd_screening" abstract a
                    (Rule ["sensitivity"] "sensitivity" Percentage)
                    ltac:(vm_compute; left)) as Hr.
      unfold fires in Hr. cbn [triggers existsb how extract field] in Hr.
      unfold has in Hr. rewrite Hks, Hv in Hr. exact Hr.
    + apply project_fields_other; apply (bool_decide_unpack _); vm_compute; exact I.
  - intros pt dp k Hdp Hk.
    apply data_point_of_Ok in Hdp as (abs' & Habs' & ->).
    rewrite Habs in Habs'. injection Habs' as <-.
    apply project_fields_key in Hk. exact Hk.
Qed.

(** The fuel of [findall] is enough: more of it changes nothing. *)
Lemma findall_from_fuel r : forall n m s,
  (length s < n)%nat -> (length s < m)%nat ->
  findall_from n r s = findall_from m r s.
Proof.
  induction n as [|n IH]; intros [|m] s Hn Hm; try lia. simpl.
  assert (Hskip : match s with
                  | [] => []
                  | _ :: s' => findall_from n r s'
                  end =
                  match s with
                  | [] => []
                  | _ :: s' => findall_from m r s'
                  end).
  { destruct s as [|x s']; [reflexivity|]. simpl in Hn, Hm. apply IH; lia. }
  destruct (bt r s None accept) as [[rest g]|]; [|exact Hskip].
  f_equal. destruct (Nat.ltb_spec (length rest) (length s)); [|exact Hskip].
  apply IH; lia.
Qed.

(** What one attempt of the currency pattern at the start of [s] yields. *)
Lemma bt_cost s o :
  bt cost_re s None accept = Some o ->
  exists c amount rest,
    s = c :: amount ++ rest /\ c ∈ [36; 226; 8218; 185]%N /\
    lang amount_re amount /\ o = (rest, Some amount).
Proof.
  unfold cost_re. simpl bt. intros H.
  apply one_char_Some in H as (c & s1 & -> & Hc & H).
  apply (bt_sound amount_re) in H as (amount & rest & g' & -> & Hl & H).
  unfold accept in H. injection H as <-.
  exists c, amount, rest. split; [reflexivity|]. split.
  - rewrite !orb_true_iff, !N.eqb_eq in Hc. rewrite !elem_of_cons.
    destruct Hc as [?|[?|[?|[?|?]]]]; auto 6; discriminate.
  - split; [exact Hl|]. f_equal. f_equal.
    rewrite length_app, Nat.add_sub. apply take_app_length.
Qed.

(** A cost that is reported is an amount that stands behind one of the
    characters of the class, with its commas removed, and no such amount
    starts further to the left. *)
Lemma extract_cost_PStr text v :
  extract_cost text = PStr v ->
  exists pre c amount post,
    text = pre ++ c :: amount ++ post /\ c ∈ [36; 226; 8218; 185]%N /\
    lang amount_re amount /\ v = remove_char 44 amount /\
    forall pre' m post',
      text = pre' ++ m ++ post' -> lang cost_re m ->
      (length pre <= length pre')%nat.
Proof.
  rewrite extract_cost_search.
  destruct (search cost_re text) as [o|] eqn:E; [|discriminate].
  apply search_Some in E as (pre & s' & -> & Hm & Hmin).
  apply bt_cost in Hm as (c & amount & rest & -> & Hc & Hl & ->). simpl.
  intros [= <-]. exists pre, c, amount, rest.
  split; [reflexivity|]. split; [exact Hc|]. split; [exact Hl|].
  split; [reflexivity|].
  intros pre' m post' Heq Hm.
  destruct (Nat.le_gt_cases (length pre) (length pre')) as [|Hlt]; [assumption|].
  pose proof (Hmin pre' _ Heq Hlt) as Hnone.
  destruct (bt_complete cost_re m Hm post' None accept) as [o Ho].
  - intros g'. unfold accept. eauto.
  - rewrite Hnone in Ho. discriminate.
Qed.

(** A record on which a rule fired has more than four fields, with or
    without a number behind the trigger. *)
Lemma fired_rule_more_than_four pt a abstract dp r :
  lowered a "abstract" = Ok abstract ->
  data_point_of pt a = Ok dp ->
  r ∈ spec_rules pt -> fires abstract r = true ->
  (4 < size dp)%nat.
Proof.
  intros Habs Hdp Hr Hf.
  apply data_point_of_Ok in Hdp as (abs' & Habs' & ->).
  rewrite Habs in Habs'. injection Habs' as <-.
  rewrite project_fields_size.
  assert (0 < length (List.filter (fires abstract) (spec_rules pt)))%nat; [|lia].
  apply filter_fires_nonempty. eauto.
Qed.

(** ** What the two patterns find *)

Lemma digits_head d :
  digits d -> exists c d', d = c :: d' /\ is_decimal c = true.
Proof.
  intros [Hne Hd]. destruct d as [|c d']; [congruence|].
  inversion Hd; subst. eauto.
Qed.

Lemma digits_last d :
  digits d -> exists d' c, d = d' ++ [c] /\ is_decimal c = true.
Proof.
  intros [Hne Hd]. destruct (exists_last Hne) as (d' & c & ->).
  exists d', c. split; [reflexivity|].
  rewrite Forall_app, Forall_singleton in Hd. apply Hd.
Qed.

Lemma digits_single c : is_decimal c = true -> digits [c].
Proof. intros Hc. split; [discriminate | repeat constructor; exact Hc]. Qed.

Lemma lang_amount_head a :
  lang amount_re a -> exists c a', a = c :: a' /\ is_decimal c = true.
Proof.
  unfold amount_re. intros H.
  inversion H as [| | |r1 r2 s1 s2 H1 H2| | | | | |]; subst.
  apply lang_plus_dig, digits_head in H1 as (c & d' & -> & Hc).
  exists c, (d' ++ s2). split; [reflexivity | exact Hc].
Qed.

Lemma lang_amount_single c : is_decimal c = true -> lang amount_re [c].
Proof.
  intros Hc. unfold amount_re.
  apply (lang_cat (Plus Dig) _ [c] []).
  - apply lang_plus_dig, digits_single, Hc.
  - apply (lang_cat _ _ [] []); constructor.
Qed.

Lemma class_elem c cs : existsb (N.eqb c) cs = true <-> c ∈ cs.
Proof.
  rewrite existsb_exists. split.
  - intros (y & Hy & E). apply N.eqb_eq in E as ->.
    apply list_elem_of_In. exact Hy.
  - intros Hc. exists c. split; [apply list_elem_of_In, Hc | apply N.eqb_refl].
Qed.

(** X1: no cost is found exactly when nowhere in the text one of the four
    characters of the class stands directly in front of a digit. *)
Theorem cost_found_iff text :
  extract_cost text = PNone <->
  ~ exists pre c d post,
      text = pre ++ c :: d :: post /\
      c ∈ [36; 226; 8218; 185]%N /\ is_decimal d = true.
Proof.
  rewrite extract_cost_PNone. split; intros Hno Hex; apply Hno; clear Hno.
  - destruct Hex as (pre & c & d & post & -> & Hc & Hd).
    exists pre, [c; d], post. split; [reflexivity|].
    apply (lang_cat (Cls _) (Grp amount_re) [c] [d]).
    + constructor. apply class_elem, Hc.
    + constructor. apply lang_amount_single, Hd.
  - destruct Hex as (pre & m & post & -> & Hm). unfold cost_re in Hm.
    inversion Hm as [| | |r1 r2 s1 s2 H1 H2| | | | | |]; subst.
    inversion H1; subst. inversion H2; subst.
    match goal with H : lang amount_re _ |- _ =>
      apply lang_amount_head in H as (d & a' & -> & Hd) end.
    exists pre, c, d, (a' ++ post). split.
    + rewrite <- app_assoc. reflexivity.
    + split; [apply class_elem; assumption | exact Hd].
Qed.

Lemma unsigned_decimal_last n :
  unsigned_decimal n -> exists n' c, n = n' ++ [c] /\ is_decimal c = true.
Proof.
  intros [Hd | (a & b & Ha & Hb & ->)].
  - apply digits_last, Hd.
  - apply digits_last in Hb as (b' & c & -> & Hc).
    exists (a ++ [46%N] ++ b'), c. rewrite <- !app_assoc. auto.
Qed.

(** X2: no percentage is found exactly when nowhere in the text a digit
    stands directly in front of a percent sign. *)
Theorem percentage_found_iff text :
  extract_percentage text = PNone <->
  ~ exists pre d post,
      text = pre ++ d :: 37%N :: post /\ is_decimal d = true.
Proof.
  rewrite extract_percentage_PNone. split; intros Hno Hex; apply Hno; clear Hno.
  - destruct Hex as (pre & d & post & -> & Hd).
    exists pre, [d; 37%N], post. split; [reflexivity|].
    apply lang_percentage. exists [d]. split; [|reflexivity].
    left. apply digits_single, Hd.
  - destruct Hex as (pre & m & post & -> & Hm).
    apply lang_percentage in Hm as (n & Hn & ->).
    apply unsigned_decimal_last in Hn as (n' & d & -> & Hd).
    exists (pre ++ n'), d, post. split; [|exact Hd].
    rewrite <- !app_assoc. reflexivity.
Qed.

(** ** Greedy digits: a match does not stop inside a run of digits *)

Lemma skip_while_clean s : clean_head (skip_while is_decimal s).
Proof.
  induction s as [|x s IH]; simpl; [exact I|].
  destruct (is_decimal x) eqn:E; [exact IH | exact E].
Qed.

Lemma skip_while_length p s : (length (skip_while p s) <= length s)%nat.
Proof.
  induction s as [|x s IH]; simpl; [lia|]. destruct (p x); simpl; lia.
Qed.

Lemma star_dig_run k s : forall n g,
  (length s <= n)%nat ->
  (forall g', is_Some (k (skip_while is_decimal s) g')) ->
  star (bt Dig) n s g k = k (skip_while is_decimal s) g.
Proof.
  induction s as [|x s IH]; intros n g Hn Hk.
  - destruct n; reflexivity.
  - destruct n as [|n]; [simpl in Hn; lia|]. simpl in *.
    destruct (is_decimal x) eqn:E; [|reflexivity].
    destruct (Nat.ltb_spec (length s) (S (length s))); [|lia].
    rewrite IH by (trivial; lia).
    destruct (Hk g) as [o ->]. reflexivity.
Qed.

Lemma bt_cat r1 r2 s g k :
  bt (Cat r1 r2) s g k = bt r1 s g (fun s1 g1 => bt r2 s1 g1 k).
Proof. reflexivity. Qed.

Lemma bt_chr c s g k : bt (Chr c) s g k = one_char (N.eqb c) s g k.
Proof. reflexivity. Qed.

Lemma bt_cls cs s g k :
  bt (Cls cs) s g k = one_char (fun x => existsb (N.eqb x) cs) s g k.
Proof. reflexivity. Qed.

Lemma bt_opt r s g k : bt (Opt r) s g k = orelse (bt r s g k) (k s g).
Proof. reflexivity. Qed.

Lemma bt_star r s g k : bt (Star r) s g k = star (bt r) (length s) s g k.
Proof. reflexivity. Qed.

Lemma bt_plus_dig s g k :
  bt (Plus Dig) s g k =
  one_char is_decimal s g (fun s1 g1 => star (bt Dig) (length s1) s1 g1 k).
Proof. reflexivity. Qed.

Lemma bt_grp r s g k :
  bt (Grp r) s g k =
  bt r s g (fun s1 _ => k s1 (Some (take (length s - length s1) s))).
Proof. reflexivity. Qed.

Lemma star_S body n s g k :
  star body (S n) s g k =
  orelse
    (body s g (fun s1 g1 =>
       if (length s1 <? length s)%nat then star body n s1 g1 k else None))
    (k s g).
Proof. reflexivity. Qed.

Lemma plus_dig_clean k :
  clean_kont k ->
  forall s g o, bt (Plus Dig) s g k = Some o -> clean_head (fst o).
Proof.
  intros Hk s g o H. rewrite bt_plus_dig in H.
  apply one_char_Some in H as (x & s' & -> & Hx & H).
  rewrite star_dig_run in H; [|lia|].
  - destruct (Hk _ g (skip_while_clean s')) as (o' & Ho' & Hc). congruence.
  - intros g'. destruct (Hk _ g' (skip_while_clean s')) as (o' & -> & _). eauto.
Qed.

Lemma group_clean c k :
  clean_kont k ->
  forall s g o,
    bt (Cat (Chr c) (Plus Dig)) s g k = Some o -> clean_head (fst o).
Proof.
  intros Hk s g o H. rewrite bt_cat, bt_chr in H.
  apply one_char_Some in H as (x & s' & -> & _ & H).
  exact (plus_dig_clean k Hk _ _ _ H).
Qed.

Lemma opt_group_clean c k :
  clean_kont k ->
  clean_kont (fun s g => bt (Opt (Cat (Chr c) (Plus Dig))) s g k).
Proof.
  intros Hk s g Hs. rewrite bt_opt.
  destruct (bt (Cat (Chr c) (Plus Dig)) s g k) as [o|] eqn:E; cbn [orelse].
  - exists o. split; [reflexivity | exact (group_clean c k Hk _ _ _ E)].
  - apply Hk, Hs.
Qed.

Lemma star_group_clean c k :
  clean_kont k ->
  forall n, clean_kont (fun s g => star (bt (Cat (Chr c) (Plus Dig))) n s g k).
Proof.
  intros Hk n. induction n as [|n IH]; intros s g Hs.
  - apply Hk, Hs.
  - rewrite star_S.
    match goal with |- context [orelse ?a _] => destruct a as [o|] eqn:E end;
      cbn [orelse]; [|apply Hk, Hs].
    exists o. split; [reflexivity|].
    rewrite bt_cat, bt_chr in E.
    apply one_char_Some in E as (x & s1 & -> & _ & E).
    rewrite bt_plus_dig in E.
    apply one_char_Some in E as (d & s2 & -> & Hd & E).
    assert (Hlt : (length (skip_while is_decimal s2) <?
                   length (x :: d :: s2))%nat = true).
    { apply Nat.ltb_lt. pose proof (skip_while_length is_decimal s2).
      simpl. lia. }
    rewrite star_dig_run in E; [|lia|].
    + rewrite Hlt in E.
      destruct (IH _ g (skip_while_clean s2)) as (o' & Ho' & Hc). congruence.
    + intros g'. rewrite Hlt.
      destruct (IH _ g' (skip_while_clean s2)) as (o' & -> & _). eauto.
Qed.

Lemma amount_clean k :
  clean_kont k ->
  forall s g o, bt amount_re s g k = Some o -> clean_head (fst o).
Proof.
  intros Hk s g o H. unfold amount_re in H. rewrite bt_cat in H.
  refine (plus_dig_clean _ _ s g o H).
  intros s1 g1 Hs1. rewrite bt_cat, bt_star.
  exact (star_group_clean 44 _ (opt_group_clean 46 k Hk) (length s1) s1 g1 Hs1).
Qed.

Lemma bt_cost_clean s o :
  bt cost_re s None accept = Some o -> clean_head (fst o).
Proof.
  unfold cost_re. rewrite bt_cat, bt_cls. intros H.
  apply one_char_Some in H as (c & s1 & -> & _ & H).
  rewrite bt_grp in H.
  refine (amount_clean _ _ s1 None o H).
  intros s2 g2 Hs2. eexists. split; [reflexivity | exact Hs2].
Qed.

(** X3: a cost that is reported stands in the text behind one of the four
    characters of the class; it is the amount there with the commas
    removed, the amount does not stop in front of a further digit, and no
    character of the class in front of a digit stands further to the left. *)
Theorem cost_is_in_text text v :
  extract_cost text = PStr v ->
  exists pre c amount post,
    text = pre ++ c :: amount ++ post /\
    c ∈ [36; 226; 8218; 185]%N /\
    lang amount_re amount /\
    v = remove_char 44 amount /\
    clean_head post /\
    forall pre' c' d post',
      text = pre' ++ c' :: d :: post' ->
      c' ∈ [36; 226; 8218; 185]%N -> is_decimal d = true ->
      (length pre <= length pre')%nat.
Proof.
  rewrite extract_cost_search.
  destruct (search cost_re text) as [o|] eqn:E; [|discriminate].
  apply search_Some in E as (pre & s' & -> & Hm & Hmin).
  pose proof (bt_cost_clean _ _ Hm) as Hclean.
  apply bt_cost in Hm as (c & amount & rest & -> & Hc & Hl & ->). simpl.
  intros [= <-]. exists pre, c, amount, rest.
  split; [reflexivity|]. split; [exact Hc|]. split; [exact Hl|].
  split; [reflexivity|]. split; [exact Hclean|].
  intros pre' c' d post' Heq Hc' Hd.
  destruct (Nat.le_gt_cases (length pre) (length pre')) as [|Hlt]; [assumption|].
  pose proof (Hmin pre' _ Heq Hlt) as Hnone.
  assert (Hm : lang cost_re [c'; d]).
  { apply (lang_cat (Cls _) (Grp amount_re) [c'] [d]).
    - constructor. apply class_elem, Hc'.
    - constructor. apply lang_amount_single, Hd. }
  destruct (bt_complete cost_re _ Hm post' None accept) as [o Ho].
  - intros g'. unfold accept. eauto.
  - change ([c'; d] ++ post') with (c' :: d :: post') in Ho.
    rewrite Hnone in Ho. discriminate.
Qed.

(** ** The shape of a reported cost *)

Lemma remove_char_app c s1 s2 :
  remove_char c (s1 ++ s2) = remove_char c s1 ++ remove_char c s2.
Proof. apply List.filter_app. Qed.

Lemma remove_char_digits c d :
  is_decimal c = false ->
  Forall (fun x => is_decimal x = true) d -> remove_char c d = d.
Proof.
  intros Hc. induction 1 as [|x d Hx _ IH]; [reflexivity|].
  unfold remove_char in *. simpl.
  destruct (N.eqb_spec x c) as [->|_]; [congruence|]. simpl. f_equal. exact IH.
Qed.

Lemma remove_char_absent c s : c ∉ remove_char c s.
Proof.
  unfold remove_char. intros Hin. apply list_elem_of_In, filter_In in Hin.
  destruct Hin as [_ Hin]. rewrite N.eqb_refl in Hin. discriminate.
Qed.

Lemma comma_groups_digits s :
  is_decimal 44 = false ->
  lang (Star (Cat (Chr 44) (Plus Dig))) s ->
  Forall (fun x => is_decimal x = true) (remove_char 44 s).
Proof.
  intros H44 H. remember (Star (Cat (Chr 44) (Plus Dig))) as r eqn:Er.
  induction H; try discriminate; injection Er as ->.
  - constructor.
  - rewrite remove_char_app. apply Forall_app. split; [|auto].
    inversion H as [| | |r1 r2 t1 t2 H1 H2| | | | | |]; subst.
    inversion H1; subst. apply lang_plus_dig in H2 as [_ H2].
    change (remove_char 44 ([44%N] ++ t2)) with (remove_char 44 t2).
    rewrite remove_char_digits; assumption.
Qed.

Lemma amount_without_commas amount :
  is_decimal 44 = false ->
  lang amount_re amount -> unsigned_decimal (remove_char 44 amount).
Proof.
  intros H44 H. unfold amount_re in H.
  inversion H as [| | |r1 r2 d1 s2 H1 H2| | | | | |]; subst.
  inversion H2 as [| | |r1 r2 cs f H3 H4| | | | | |]; subst.
  apply lang_plus_dig in H1 as [Hne Hd1].
  pose proof (comma_groups_digits _ H44 H3) as Hcs.
  rewrite !remove_char_app, (remove_char_digits _ _ H44 Hd1).
  assert (Hint : digits (d1 ++ remove_char 44 cs)).
  { split; [destruct d1; [congruence | discriminate]|].
    apply Forall_app. split; assumption. }
  inversion H4 as [| | | | | | |r|r s H5|]; subst.
  - left. simpl. rewrite app_nil_r. exact Hint.
  - inversion H5 as [| | |r1 r2 t1 d2 H6 H7| | | | | |]; subst.
    inversion H6; subst. apply lang_plus_dig in H7.
    right. exists (d1 ++ remove_char 44 cs), d2.
    split; [exact Hint|]. split; [exact H7|].
    change (remove_char 44 ([46%N] ++ d2)) with (46%N :: remove_char 44 d2).
    rewrite (remove_char_digits _ _ H44 (proj2 H7)), <- app_assoc.
    reflexivity.
Qed.

(** X4: a reported cost is a plain unsigned decimal number, digits with at
    most one point between them, and has no comma left in it. *)
Theorem cost_is_a_number text v :
  is_decimal 44 = false ->
  extract_cost text = PStr v ->
  unsigned_decimal v /\ 44%N ∉ v.
Proof.
  intros H44 H.
  apply extract_cost_PStr in H as (pre & c & amount & post & _ & _ & Hl & -> & _).
  split; [apply amount_without_commas; assumption | apply remove_char_absent].
Qed.

Lemma unsigned_decimal_cons d n :
  is_decimal d = true -> unsigned_decimal n -> unsigned_decimal (d :: n).
Proof.
  intros Hd [[Hne Hn] | (a & b & [Hne Ha] & Hb & ->)].
  - left. split; [discriminate | constructor; assumption].
  - right. exists (d :: a), b. split; [|split; [exact Hb | reflexivity]].
    split; [discriminate | constructor; assumption].
Qed.

(** X5: a percentage that is reported is an unsigned decimal number that
    stands in the text directly in front of a percent sign; no digit stands
    directly in front of the number, and no digit in front of a percent sign
    stands further to the left than the number starts. *)
Theorem percentage_is_in_text text n :
  extract_percentage text = PStr n ->
  exists pre post,
    text = pre ++ n ++ [37%N] ++ post /\
    unsigned_decimal n /\
    (forall pre' d, pre = pre' ++ [d] -> is_decimal d = false) /\
    forall pre' d post',
      text = pre' ++ d :: 37%N :: post' -> is_decimal d = true ->
      (length pre <= length pre')%nat.
Proof.
  intros H.
  apply extract_percentage_PStr in H as (pre & post & -> & Hn & Hmin).
  exists pre, post. split; [reflexivity|]. split; [exact Hn|]. split.
  - intros pre' d -> . destruct (is_decimal d) eqn:Hd; [|reflexivity].
    exfalso.
    assert (Hlen := Hmin pre' (d :: n) post).
    rewrite length_app in Hlen. simpl in Hlen.
    enough (length pre' + 1 <= length pre')%nat by lia.
    apply Hlen; [|apply unsigned_decimal_cons; assumption].
    rewrite <- !app_assoc. reflexivity.
  - intros pre' d post' Heq Hd.
    apply (Hmin pre' [d] post'); [exact Heq|].
    left. apply digits_single, Hd.
Qed.

(** ** The values and the number of the fields *)

Lemma extract_cost_cases text :
  extract_cost text = PNone \/ exists v, extract_cost text = PStr v.
Proof.
  rewrite extract_cost_search. destruct (search cost_re text); eauto.
Qed.

(** X6: a field of an output data point beyond the four baseline ones
    holds [None] or an unsigned decimal number given as a string. *)
Theorem metric_values_are_numbers articles pt out dp k v :
  is_decimal 44 = false ->
  extract_relevant_data articles pt = Ok out ->
  dp ∈ out -> ~ k ∈ baseline_keys -> dp !! k = Some v ->
  v = PNone \/ exists n, v = PStr n /\ unsigned_decimal n.
Proof.
  intros H44 Hout Hdp Hk Hv.
  apply (extract_relevant_data_elem _ _ _ Hout) in Hdp as (a & _ & Hdp & _).
  apply data_point_of_Ok in Hdp as (abstract & _ & ->).
  assert (Hs : is_Some (project_fields pt abstract (baseline a) !! k)) by eauto.
  apply project_fields_key in Hs as [Hs | (r & Hr & <- & Hf)]; [contradiction|].
  rewrite (project_fields_rule _ _ _ _ Hr), Hf in Hv. injection Hv as <-.
  destruct (how r); simpl.
  - destruct (extract_percentage_cases abstract) as [-> | [n E]]; [left; reflexivity|].
    right. exists n. split; [exact E|].
    apply extract_percentage_PStr in E as (_ & _ & _ & Hn & _). exact Hn.
  - destruct (extract_cost_cases abstract) as [-> | [n E]]; [left; reflexivity|].
    right. exists n. split; [exact E|].
    apply extract_cost_PStr in E as (_ & _ & amount & _ & _ & _ & Hl & -> & _).
    apply amount_without_commas; assumption.
Qed.

Lemma spec_rules_length pt : (length (spec_rules pt) <= 3)%nat.
Proof.
  unfold spec_rules.
  repeat match goal with
         | |- context [String.eqb pt ?s] => destruct (String.eqb pt s)
         end;
    simpl; lia.
Qed.

Lemma filter_length_le {A : Type} (f : A -> bool) (l : list A) :
  (length (List.filter f l) <= length l)%nat.
Proof.
  induction l as [|x l IH]; simpl; [lia|]. destruct (f x); simpl; lia.
Qed.

(** X7: an output data point has five, six or seven fields. *)
Theorem output_field_count articles pt out dp :
  extract_relevant_data articles pt = Ok out ->
  dp ∈ out -> (5 <= size dp <= 7)%nat.
Proof.
  intros Hout Hdp.
  apply (extract_relevant_data_elem _ _ _ Hout) in Hdp as (a & _ & Hdp & Hsz).
  apply data_point_of_Ok in Hdp as (abstract & _ & ->).
  rewrite project_fields_size in *.
  pose proof (filter_length_le (fires abstract) (spec_rules pt)).
  pose proof (spec_rules_length pt). lia.
Qed.

(** X8: the extractor works record by record: the output for two batches
    put end to end is the output for the first followed by the output for
    the second, and entries that are [None] make no difference. *)
Theorem batches_extract_independently articles1 articles2 pt out1 out2 :
  extract_relevant_data articles1 pt = Ok out1 ->
  extract_relevant_data articles2 pt = Ok out2 ->
  extract_relevant_data (articles1 ++ articles2) pt = Ok (out1 ++ out2) /\
  extract_relevant_data (articles1 ++ None :: articles2) pt = Ok (out1 ++ out2).
Proof.
  intros H1 H2. rewrite !extract_relevant_data_app, extract_relevant_data_skip.
  rewrite H1, H2. split; reflexivity.
Qed.

(** ** The batches of [search_and_fetch] *)

Lemma py_range_from_0 n step :
  py_range 0 n step =
  map (fun k => k * step)%nat (seq 0 ((n + (step - 1)) / step)).
Proof. unfold py_range. rewrite Nat.sub_0_r. reflexivity. Qed.

Lemma chunks_concat {A : Type} (p : list A) m : forall a,
  concat (map (fun i => take 20 (drop i p))
              (map (fun k => k * 20)%nat (seq a m))) =
  take (m * 20) (drop (a * 20) p).
Proof.
  induction m as [|m IH]; intros a; [reflexivity|].
  cbn [seq map concat]. rewrite IH.
  replace (S a * 20)%nat with (a * 20 + 20)%nat by lia.
  rewrite <- drop_drop, take_take_drop. f_equal.
Qed.

Lemma truncate_100 {A : Type} (l : list A) :
  (if (100 <? length l)%nat then take 100 l else l) = take 100 l.
Proof.
  destruct (Nat.ltb_spec 100 (length l)); [reflexivity|].
  symmetry. apply take_ge. assumption.
Qed.

Lemma batches_of_eq pmids :
  batches_of pmids =
  map (fun i => take 20 (drop i (take 100 pmids)))
      (map (fun k => k * 20)%nat
           (seq 0 ((length (take 100 pmids) + 19) / 20))).
Proof.
  unfold batches_of. rewrite truncate_100, py_range_from_0. reflexivity.
Qed.

Lemma nth_map_lt {A B : Type} (f : A -> B) (l : list A) d d' : forall k,
  (k < length l)%nat -> nth k (map f l) d = f (nth k l d').
Proof.
  induction l as [|x l IH]; intros [|k] Hk; simpl in *; try lia;
    [reflexivity | apply IH; lia].
Qed.

Lemma batches_of_nth pmids k :
  (k < length (batches_of pmids))%nat ->
  nth k (batches_of pmids) [] = take 20 (drop (k * 20) (take 100 pmids)).
Proof.
  rewrite batches_of_eq, !length_map, length_seq. intros Hk.
  rewrite (nth_map_lt _ _ _ 0%nat) by (rewrite length_map, length_seq; exact Hk).
  rewrite (nth_map_lt _ _ _ 0%nat) by (rewrite length_seq; exact Hk).
  rewrite seq_nth by exact Hk. reflexivity.
Qed.

Lemma batches_of_concat pmids : concat (batches_of pmids) = take 100 pmids.
Proof.
  rewrite batches_of_eq, chunks_concat. simpl drop. apply take_ge.
  pose proof (Nat.div_mod_eq (length (take 100 pmids) + 19) 20).
  pose proof (Nat.mod_upper_bound (length (take 100 pmids) + 19) 20). lia.
Qed.

Lemma batches_of_length pmids :
  length (batches_of pmids) = ((length (take 100 pmids) + 19) / 20)%nat.
Proof. rewrite batches_of_eq, !length_map, length_seq. reflexivity. Qed.

Lemma fetch_batches_acc pmids starts : forall articles,
  fetch_batches pmids 20 starts articles =
  match fetch_all (map (fun i => take 20 (drop i pmids)) starts) with
  | inl e => inl e
  | inr fetched => inr (articles ++ fetched)
  end.
Proof.
  induction starts as [|i starts IH]; intros articles; cbn [fetch_batches map fetch_all].
  - rewrite app_nil_r. reflexivity.
  - destruct (fetch_abstracts (take 20 (drop i pmids))) as [e|batch]; [reflexivity|].
    rewrite IH.
    destruct (fetch_all _) as [e|fetched]; [reflexivity|].
    rewrite app_assoc. reflexivity.
Qed.

Lemma search_and_fetch_batches query max_results :
  search_and_fetch query max_results =
  match esearch query max_results with
  | inl e => inl e
  | inr pmids => fetch_all (batches_of pmids)
  end.
Proof.
  unfold search_and_fetch, batches_of.
  destruct (esearch query max_results) as [e|pmids]; [reflexivity|].
  rewrite fetch_batches_acc. destruct (fetch_all _); reflexivity.
Qed.

(** X9: [search_and_fetch] fetches the batches of [batches_of] one after
    the other; these are the first hundred identifiers found, in order and
    each once, in at most five batches; no batch is empty, none has more
    than twenty identifiers, and all but the last have twenty. *)
Theorem batches_cover_first_hundred query max_results pmids :
  search_and_fetch query max_results =
    match esearch query max_results with
    | inl e => inl e
    | inr found => fetch_all (batches_of found)
    end /\
  concat (batches_of pmids) = take 100 pmids /\
  (length (batches_of pmids) <= 5)%nat /\
  (forall k,
      (k < length (batches_of pmids))%nat ->
      (1 <= length (nth k (batches_of pmids) []) <= 20)%nat) /\
  (forall k,
      (S k < length (batches_of pmids))%nat ->
      length (nth k (batches_of pmids) []) = 20%nat).
Proof.
  pose proof (batches_of_length pmids) as Hlen.
  pose proof (length_take pmids 100) as Ht.
  assert (Hdiv : forall n, (20 * ((n + 19) / 20) <= n + 19 /\
                            n + 19 < 20 * ((n + 19) / 20) + 20)%nat).
  { intros n. pose proof (Nat.div_mod_eq (n + 19) 20).
    pose proof (Nat.mod_upper_bound (n + 19) 20). lia. }
  specialize (Hdiv (length (take 100 pmids))).
  split; [apply search_and_fetch_batches|].
  split; [|split; [|split]].
  - apply batches_of_concat.
  - lia.
  - intros k Hk. rewrite (batches_of_nth _ _ Hk), length_take, length_drop. lia.
  - intros k Hk. rewrite batches_of_nth by lia.
    rewrite length_take, length_drop. lia.
Qed.

Lemma fetch_all_pointwise (g : str -> pubmed_xml) batches :
  Forall (fun b => b <> [] -> efetch b = inr (map g b)) batches ->
  fetch_all batches = inr (map (fun id => article_of_xml (g id)) (concat batches)).
Proof.
  induction 1 as [|b batches Hb _ IH]; [reflexivity|].
  cbn [fetch_all concat]. rewrite IH, map_app.
  unfold fetch_abstracts. destruct b as [|id b]; [reflexivity|].
  rewrite Hb by discriminate. rewrite map_map. reflexivity.
Qed.

(** X10: when the fetch request answers every batch with one record for
    each identifier, in order, [search_and_fetch] returns the records of the
    first hundred identifiers found, in order: the batching does not show,
    the cut at one hundred does. *)
Theorem batching_is_transparent query max_results pmids
    (g : str -> pubmed_xml) :
  esearch query max_results = inr pmids ->
  (forall batch, In batch (batches_of pmids) -> efetch batch = inr (map g batch)) ->
  search_and_fetch query max_results =
  inr (map (fun id => article_of_xml (g id)) (take 100 pmids)).
Proof.
  intros Hs Hf. rewrite search_and_fetch_batches, Hs.
  rewrite (fetch_all_pointwise g).
  - rewrite batches_of_concat. reflexivity.
  - apply List.Forall_forall. intros b Hb _. apply Hf, Hb.
Qed.

Lemma batches_of_nonempty pmids batch :
  In batch (batches_of pmids) -> batch <> [].
Proof.
  intros Hin. apply (In_nth _ _ []) in Hin as (k & Hk & <-).
  pose proof (batches_of_length pmids) as Hlen.
  pose proof (Nat.div_mod_eq (length (take 100 pmids) + 19) 20).
  pose proof (Nat.mod_upper_bound (length (take 100 pmids) + 19) 20).
  intros E. apply (f_equal length) in E.
  rewrite (batches_of_nth _ _ Hk), length_take, length_drop in E.
  cbn [length] in E. lia.
Qed.

Lemma fetch_all_fails done batch todo e :
  Forall (fun b => exists xs, efetch b = inr xs) done ->
  batch <> [] -> efetch batch = inl e ->
  fetch_all (done ++ batch :: todo) = inl e.
Proof.
  intros Hdone Hne He. induction Hdone as [|b done [xs Hb] _ IH];
    cbn [app fetch_all].
  - unfold fetch_abstracts. destruct batch; [congruence|]. rewrite He. reflexivity.
  - rewrite IH. unfold fetch_abstracts. destruct b; [reflexivity|].
    rewrite Hb. reflexivity.
Qed.

(** X11: when the request for a batch raises and those for the batches in
    front of it did not, [search_and_fetch] raises that exception; the
    records fetched so far are lost. *)
Theorem first_failing_batch_raises query max_results pmids done batch todo e :
  esearch query max_results = inr pmids ->
  batches_of pmids = done ++ batch :: todo ->
  Forall (fun b => exists xs, efetch b = inr xs) done ->
  efetch batch = inl e ->
  search_and_fetch query max_results = inl e.
Proof.
  intros Hs Hb Hdone He. rewrite search_and_fetch_batches, Hs, Hb.
  apply fetch_all_fails; [exact Hdone | | exact He].
  apply (batches_of_nonempty pmids). rewrite Hb. apply in_elt.
Qed.

(** ** Fetched records and the extractor *)

Lemma article_of_xml_get x :
  dict_get (article_of_xml x) "title" = text_or_empty (xml_title x) /\
  dict_get (article_of_xml x) "abstract" = text_or_empty (xml_abstract x).
Proof. split; reflexivity. Qed.

Lemma text_or_empty_text e : text_or_none (text_or_empty e) = true.
Proof. destruct e as [[t|]|]; reflexivity. Qed.

Lemma article_of_xml_well_typed x : well_typed (article_of_xml x).
Proof.
  destruct (article_of_xml_get x) as [Ht Ha].
  split; [rewrite Ht | rewrite Ha]; apply text_or_empty_text.
Qed.

Lemma fetch_all_well_typed batches : forall articles,
  fetch_all batches = inr articles -> Forall well_typed articles.
Proof.
  induction batches as [|b batches IH]; intros articles; cbn [fetch_all].
  - intros [= <-]. constructor.
  - destruct (fetch_abstracts b) as [e|xs] eqn:Eb; [discriminate|].
    destruct (fetch_all batches) as [e|ys]; [discriminate|].
    intros [= <-]. apply Forall_app. split; [|apply IH; reflexivity].
    unfold fetch_abstracts in Eb. destruct b as [|id b].
    + injection Eb as <-. constructor.
    + destruct (efetch (id :: b)) as [e|raw]; [discriminate|].
      injection Eb as <-. apply Forall_forall. intros a Ha.
      apply list_elem_of_In, in_map_iff in Ha as (x & <- & _).
      apply article_of_xml_well_typed.
Qed.

Lemma search_and_fetch_well_typed query max_results articles :
  search_and_fetch query max_results = inr articles ->
  Forall well_typed articles.
Proof.
  rewrite search_and_fetch_batches.
  destruct (esearch query max_results) as [e|pmids]; [discriminate|].
  apply fetch_all_well_typed.
Qed.

Lemma extract_fetched query max_results articles pt :
  search_and_fetch query max_results = inr articles ->
  exists out, extract_relevant_data (Some <$> articles) pt = Ok out.
Proof.
  intros H. apply search_and_fetch_well_typed in H.
  apply extract_relevant_data_total. intros a Ha.
  apply list_elem_of_fmap in Ha as (a' & [= ->] & Ha).
  rewrite Forall_forall in H. apply H, Ha.
Qed.

(** X12: in every record [search_and_fetch] returns, title and abstract
    are a string or [None], whatever the answer of the service lacked, and
    so the extractor returns a list for these records under every
    category. *)
Theorem fetched_records_extract query max_results articles :
  search_and_fetch query max_results = inr articles ->
  Forall well_typed articles /\
  forall pt, exists out, extract_relevant_data (Some <$> articles) pt = Ok out.
Proof.
  intros H. split; [exact (search_and_fetch_well_typed _ _ _ H)|].
  intros pt. exact (extract_fetched _ _ _ pt H).
Qed.

(** X13: [perform_literature_search] never ends with an exception of the
    extractor: it returns, or an exception of the network layer or of a
    file step goes through. *)
Theorem perform_never_fails_in_the_extractor mkdir_data write_csv search_file
    project_name :
  match perform_literature_search mkdir_data write_csv search_file
          project_name with
  | PythonError _ => False
  | _ => True
  end.
Proof.
  unfold perform_literature_search.
  destruct search_file as [[e|content]|]; [exact I | | exact I].
  destruct (pubmed_query_of content) as [q|]; [|exact I].
  destruct (search_and_fetch q 50) as [e'|articles] eqn:E; [exact I|].
  destruct (extract_fetched _ _ _ (project_type_of project_name) E) as [out ->].
  destruct mkdir_data; [exact I|].
  destruct (write_csv "search_results_raw.csv" articles); [exact I|].
  destruct out; [exact I|].
  destruct (write_csv "extracted_data.csv" _); exact I.
Qed.



(** X15: when both files are there and read, the function
    [update_data_extraction_template] hands the tables to is the one of the
    project type the literature search used for the same folder, and it
    reports an unknown project type exactly when that search ran under
    "general". *)
Theorem template_matches_project_type project_name df_extracted df_template :
  (update_data_extraction_template
     (Some (inr df_extracted)) (Some (inr df_template)) project_name =
   UnknownProjectType <->
   project_type_of project_name = "general") /\
  forall t,
    update_data_extraction_template
      (Some (inr df_extracted)) (Some (inr df_template)) project_name =
    Fill t df_template df_extracted <->
    project_type_of project_name = category_of t.
Proof.
  unfold update_data_extraction_template, project_type_of.
  repeat match goal with
         | |- context [contains ?kw (lower project_name)] =>
             destruct (contains kw (lower project_name))
         end;
    (split; [split; intros; congruence|]);
    intros []; split; intros; first [discriminate | reflexivity | congruence].
Qed.

(** ** The query of the search-strings file *)

Lemma skip_while_split p s :
  exists u, s = u ++ skip_while p s /\ Forall (fun x => p x = true) u.
Proof.
  induction s as [|x s (u & Hs & Hu)]; simpl.
  - exists []. split; [reflexivity | constructor].
  - destruct (p x) eqn:E.
    + exists (x :: u). split; [simpl; f_equal; exact Hs | constructor; assumption].
    + exists []. split; [reflexivity | constructor].
Qed.

Lemma skip_while_head p s x r : skip_while p s = x :: r -> p x = false.
Proof.
  induction s as [|y s IH]; simpl; [discriminate|].
  destruct (p y) eqn:E; [exact IH | intros [= <- _]; exact E].
Qed.

Lemma skip_while_fixed p x r : p x = false -> skip_while p (x :: r) = x :: r.
Proof. intros E. simpl. rewrite E. reflexivity. Qed.

Lemma skip_while_idem p s : skip_while p (skip_while p s) = skip_while p s.
Proof.
  destruct (skip_while p s) as [|x r] eqn:E; [reflexivity|].
  apply skip_while_fixed. exact (skip_while_head _ _ _ _ E).
Qed.

(** Pieces of a text. *)
Lemma contains_refl s : contains s s = true.
Proof. apply contains_spec. exists [], []. rewrite app_nil_r. reflexivity. Qed.

Lemma contains_trans a b c :
  contains a b = true -> contains b c = true -> contains a c = true.
Proof.
  rewrite !contains_spec. intros (p1 & q1 & ->) (p2 & q2 & ->).
  exists (p2 ++ p1), (q1 ++ q2). rewrite <- !app_assoc. reflexivity.
Qed.

Lemma contains_prefix a b : contains a (a ++ b) = true.
Proof. apply contains_spec. exists [], b. reflexivity. Qed.

Lemma contains_suffix a b : contains b (a ++ b) = true.
Proof. apply contains_spec. exists a, []. rewrite app_nil_r. reflexivity. Qed.

Lemma contains_elem a b x : contains a b = true -> x ∈ a -> x ∈ b.
Proof.
  rewrite contains_spec. intros (p & q & ->) Hx.
  rewrite !elem_of_app. auto.
Qed.

Lemma contains_skip_while p s : contains (skip_while p s) s = true.
Proof.
  destruct (skip_while_split p s) as (u & Hs & _).
  rewrite Hs at 2. apply contains_suffix.
Qed.

Lemma contains_strip s : contains (strip s) s = true.
Proof.
  apply contains_trans with (skip_while is_space s);
    [|apply contains_skip_while].
  unfold strip.
  destruct (skip_while_split is_space (rev (skip_while is_space s)))
    as (u & Hs & _).
  apply (f_equal (@rev N)) in Hs. rewrite rev_involutive, rev_app_distr in Hs.
  rewrite Hs at 2. apply contains_prefix.
Qed.

Lemma strip_front s : skip_while is_space (strip s) = strip s.
Proof.
  unfold strip.
  destruct (skip_while_split is_space (rev (skip_while is_space s)))
    as (u & Hs & _).
  set (w := skip_while is_space (rev (skip_while is_space s))) in *.
  destruct (rev w) as [|x r] eqn:Ew; [reflexivity|].
  apply skip_while_fixed.
  apply (f_equal (@rev N)) in Hs. rewrite rev_involutive, rev_app_distr, Ew in Hs.
  exact (skip_while_head _ _ _ _ Hs).
Qed.

(** Stripping a stripped text changes nothing. *)
Lemma strip_strip s : strip (strip s) = strip s.
Proof.
  unfold strip at 1. rewrite strip_front. unfold strip.
  rewrite rev_involutive, skip_while_idem. reflexivity.
Qed.

Lemma split_on_pieces sep s :
  match split_on sep s with
  | [] => False
  | piece :: pieces =>
      (exists rest, s = piece ++ rest) /\
      forall line, line ∈ pieces -> contains line s = true
  end.
Proof.
  induction s as [|x s IH]; simpl.
  - split; [exists []; reflexivity|].
    intros line Hin. apply elem_of_nil in Hin as [].
  - destruct (split_on sep s) as [|piece pieces]; [destruct IH|].
    destruct IH as [[rest Hs] Hp].
    assert (Hall : forall line, line ∈ piece :: pieces ->
                                contains line (x :: s) = true).
    { intros line Hin. apply contains_trans with s;
        [|apply (contains_suffix [x])].
      apply elem_of_cons in Hin as [-> | Hin]; [|apply Hp, Hin].
      rewrite Hs. apply contains_prefix. }
    destruct (N.eqb x sep).
    + split; [exists (x :: s); reflexivity | exact Hall].
    + split; [exists rest; simpl; f_equal; exact Hs|].
      intros line Hin. apply Hall. right. exact Hin.
Qed.

Lemma split_on_contains sep s line :
  line ∈ split_on sep s -> contains line s = true.
Proof.
  pose proof (split_on_pieces sep s) as H.
  destruct (split_on sep s) as [|piece pieces]; [destruct H|].
  destruct H as [[rest Hs] Hp]. intros Hin.
  apply elem_of_cons in Hin as [-> | Hin]; [|apply Hp, Hin].
  rewrite Hs. apply contains_prefix.
Qed.

Lemma split_on_no_sep sep s line : line ∈ split_on sep s -> sep ∉ line.
Proof.
  revert line. induction s as [|x s IH]; intros line; simpl.
  - intros Hin. apply list_elem_of_singleton in Hin as ->. apply not_elem_of_nil.
  - destruct (N.eqb_spec x sep) as [->|Hne].
    + intros Hin. apply elem_of_cons in Hin as [-> | Hin];
        [apply not_elem_of_nil | apply IH, Hin].
    + destruct (split_on sep s) as [|piece pieces] eqn:E.
      * intros Hin. apply list_elem_of_singleton in Hin as ->.
        rewrite list_elem_of_singleton. congruence.
      * intros Hin. apply elem_of_cons in Hin as [-> | Hin].
        -- rewrite not_elem_of_cons. split; [congruence|]. apply IH. left.
        -- apply IH. right. exact Hin.
Qed.

Lemma split_once_part sep s :
  forall first part rest,
    split_once sep s = first :: part :: rest -> contains part s = true.
Proof.
  induction s as [|y s IH]; intros first part rest; cbn [split_once];
    [discriminate|].
  destruct (N.eqb y sep).
  - intros [= _ <- _]. apply (contains_suffix [y]).
  - destruct (split_once sep s) as [|piece pieces] eqn:E; [discriminate|].
    intros [= _ Hp]. subst pieces.
    apply contains_trans with s; [|apply (contains_suffix [y])].
    exact (IH _ _ _ eq_refl).
Qed.

Lemma skipped_nonempty line : skipped line = false -> line <> [].
Proof. destruct line; discriminate. Qed.

Lemma after_colon_query raw q :
  after_colon (strip raw) = Some q ->
  q <> [] /\ strip q = q /\ contains q raw = true.
Proof.
  unfold after_colon. destruct (contains [58%N] (strip raw)); [|discriminate].
  destruct (split_once 58 (strip raw)) as [|first [|part rest]] eqn:E;
    try discriminate.
  destruct (strip part) as [|c q'] eqn:Ep; [discriminate|].
  intros [= <-]. split; [discriminate|]. split.
  - rewrite <- Ep. apply strip_strip.
  - rewrite <- Ep. apply contains_trans with part; [apply contains_strip|].
    apply contains_trans with (strip raw); [|apply contains_strip].
    exact (split_once_part _ _ _ _ _ E).
Qed.

Lemma look_ahead_query lines i js q :
  look_ahead lines i js = Some q -> query_like lines q.
Proof.
  induction js as [|j js IH]; simpl; [discriminate|].
  destruct (skipped (strip (default [] (lines !! (i + j)%nat)))) eqn:E;
    [exact IH|].
  intros [= <-]. split; [exact (skipped_nonempty _ E)|].
  split; [apply strip_strip|].
  destruct (lines !! (i + j)%nat) as [raw|] eqn:El.
  - exists raw. split; [apply list_elem_of_lookup; eauto | apply contains_strip].
  - simpl in E. unfold strip in E. simpl in E. discriminate.
Qed.

Lemma filled_query lines q : query_like lines q -> filled (Some q) = true.
Proof. intros [Hne _]. destruct q; [congruence | reflexivity]. Qed.

Lemma scan_lines_query lines todo : forall i pubmed_query q,
  (forall raw, raw ∈ todo -> raw ∈ lines) ->
  scan_lines lines i todo pubmed_query = Some q ->
  pubmed_query = Some q \/ query_like lines q.
Proof.
  induction todo as [|raw todo IH]; intros i pq q Hin; cbn [scan_lines].
  - auto.
  - assert (Hraw : raw ∈ lines) by (apply Hin; left).
    assert (Htodo : forall r, r ∈ todo -> r ∈ lines)
      by (intros r Hr; apply Hin; right; exact Hr).
    assert (Hline : skipped (strip raw) = false -> query_like lines (strip raw)).
    { intros E. split; [exact (skipped_nonempty _ E)|].
      split; [apply strip_strip|]. exists raw. split; [exact Hraw|].
      apply contains_strip. }
    destruct (skipped (strip raw)) eqn:Es; [apply IH, Htodo|].
    destruct (contains (cps "pubmed") (lower (strip raw))).
    + destruct (after_colon (strip raw)) as [q0|] eqn:Ec.
      * intros [= <-]. right.
        destruct (after_colon_query _ _ Ec) as (H1 & H2 & H3).
        split; [exact H1|]. split; [exact H2|]. eauto.
      * destruct (look_ahead lines i _) as [q1|] eqn:El.
        -- rewrite (filled_query lines q1 (look_ahead_query _ _ _ _ El)).
           intros [= <-]. right. exact (look_ahead_query _ _ _ _ El).
        -- destruct (filled pq); [auto | apply IH, Htodo].
    + destruct (negb (filled pq) && (10 <? length (strip raw))%nat).
      * intros [= <-]. right. apply Hline. reflexivity.
      * apply IH, Htodo.
Qed.

(** X16: the query read off the search-strings file, when there is one, is
    not empty, has no white space at either end, lies on one line and is a
    piece of the text of the file. *)
Theorem query_is_a_stripped_piece_of_a_line search_content q :
  pubmed_query_of search_content = Some q ->
  q <> [] /\ strip q = q /\ ~ 10%N ∈ q /\ contains q search_content = true.
Proof.
  unfold pubmed_query_of.
  destruct (filled (scan_lines _ 0 _ None)); [|discriminate].
  intros H. apply scan_lines_query in H as [H | (Hne & Hs & raw & Hraw & Hc)];
    [discriminate | | auto].
  split; [exact Hne|]. split; [exact Hs|]. split.
  - intros Hx. apply (split_on_no_sep _ _ _ Hraw).
    exact (contains_elem _ _ _ Hc Hx).
  - apply contains_trans with raw; [exact Hc|].
    exact (split_on_contains _ _ _ Hraw).
Qed.

Lemma passed_over_cases line :
  passed_over line = true ->
  skipped line = true \/
  (skipped line = false /\ contains (cps "pubmed") (lower line) = false /\
   (10 <? length line)%nat = false).
Proof.
  unfold passed_over. destruct (skipped line); [auto|]. simpl.
  rewrite andb_true_iff, negb_true_iff, Nat.leb_le. intros [H1 H2].
  right. split; [reflexivity|]. split; [exact H1|]. apply Nat.ltb_ge. exact H2.
Qed.

Lemma scan_lines_passed_over lines pre : forall i todo,
  Forall (fun raw => passed_over (strip raw) = true) pre ->
  scan_lines lines i (pre ++ todo) None =
  scan_lines lines (i + length pre) todo None.
Proof.
  induction pre as [|raw pre IH]; intros i todo Hpre.
  - rewrite Nat.add_0_r. reflexivity.
  - inversion Hpre as [|? ? Hraw Hrest]; subst.
    cbn [app scan_lines length].
    replace (i + S (length pre))%nat with (S i + length pre)%nat by lia.
    apply passed_over_cases in Hraw as [-> | (-> & -> & Hlen)];
      [apply IH, Hrest|].
    cbn [filled negb andb]. rewrite Hlen. apply IH, Hrest.
Qed.

(** X17: a file in which every line is empty, a comment, or a line of at
    most ten characters that does not name PubMed has no query, and then
    [perform_literature_search] returns [None] without a request and
    without writing a file. *)
Theorem no_query_without_a_usable_line mkdir_data write_csv search_content :
  Forall (fun raw => passed_over (strip raw) = true)
         (split_on 10 search_content) ->
  pubmed_query_of search_content = None /\
  forall project_name,
    perform_literature_search mkdir_data write_csv
      (Some (inr search_content)) project_name =
    Returned None [].
Proof.
  intros H.
  assert (Hq : pubmed_query_of search_content = None).
  { unfold pubmed_query_of.
    rewrite <- (app_nil_r (split_on 10 search_content)) at 2.
    rewrite scan_lines_passed_over by exact H. reflexivity. }
  split; [exact Hq|]. intros project_name.
  unfold perform_literature_search. rewrite Hq. reflexivity.
Qed.

Lemma py_range_from_1 stop :
  py_range 1 stop 1 = map (fun k => 1 + k * 1)%nat (seq 0 (stop - 1)).
Proof.
  unfold py_range. rewrite Nat.sub_diag, Nat.add_0_r, Nat.div_1_r. reflexivity.
Qed.

Lemma look_ahead_window pre raw post n : forall a,
  (a + n <= length post)%nat ->
  look_ahead (pre ++ raw :: post) (length pre)
    (map (fun k => 1 + k * 1)%nat (seq a n)) =
  first_usable (take n (drop a post)).
Proof.
  induction n as [|n IH]; intros a Ha; [reflexivity|].
  cbn [seq map look_ahead].
  assert (Hlook : (pre ++ raw :: post) !! (length pre + (1 + a * 1))%nat =
                  post !! a).
  { rewrite lookup_app_r by lia.
    replace (length pre + (1 + a * 1) - length pre)%nat with (S a) by lia.
    reflexivity. }
  match goal with
  | |- context [@lookup ?K ?A ?M ?I ?j ?l] =>
      replace (@lookup K A M I j l) with (post !! a)
        by (symmetry; exact Hlook)
  end.
  destruct (post !! a) as [x|] eqn:Ex;
    [|apply lookup_ge_None in Ex; lia].
  rewrite (drop_S _ _ _ Ex). cbn [take first_usable from_option id].
  destruct (skipped (strip x)); [|reflexivity].
  apply IH. lia.
Qed.

Lemma look_ahead_next pre raw post :
  look_ahead (pre ++ raw :: post) (length pre)
    (py_range 1 (Nat.min 5 (length (pre ++ raw :: post) - length pre)) 1) =
  first_usable (take 4 post).
Proof.
  rewrite py_range_from_1, length_app. cbn [length].
  replace (Nat.min 5 (length pre + S (length post) - length pre) - 1)%nat
    with (Nat.min 4 (length post)) by lia.
  rewrite look_ahead_window by lia.
  rewrite drop_0, <- take_take, (take_ge post (length post)) by lia.
  reflexivity.
Qed.

Lemma first_usable_filled ls q : first_usable ls = Some q -> filled (Some q) = true.
Proof.
  induction ls as [|l ls IH]; simpl; [discriminate|].
  destruct (skipped (strip l)) eqn:E; [exact IH|].
  intros [= <-]. destruct (strip l); [discriminate | reflexivity].
Qed.

Lemma scan_lines_first_usable pre raw post :
  Forall (fun l => passed_over (strip l) = true) pre ->
  skipped (strip raw) = false ->
  scan_lines (pre ++ raw :: post) 0 (pre ++ raw :: post) None =
  if contains (cps "pubmed") (lower (strip raw)) then
    match after_colon (strip raw) with
    | Some q => Some q
    | None =>
        match first_usable (take 4 post) with
        | Some q => Some q
        | None => scan_lines (pre ++ raw :: post) (S (length pre)) post None
        end
    end
  else if (10 <? length (strip raw))%nat then Some (strip raw)
  else scan_lines (pre ++ raw :: post) (S (length pre)) post None.
Proof.
  intros Hpre Hs. rewrite scan_lines_passed_over by exact Hpre.
  cbn [scan_lines Nat.add]. rewrite Hs, look_ahead_next.
  destruct (contains (cps "pubmed") (lower (strip raw))); [|reflexivity].
  destruct (after_colon (strip raw)); [reflexivity|].
  destruct (first_usable (take 4 post)) as [q|] eqn:E; [|reflexivity].
  rewrite (first_usable_filled _ _ E). reflexivity.
Qed.

(** X18: the first line that is not passed over decides.  If it does not
    name PubMed it is the query itself; if it names PubMed and has text
    after its first colon, that text is the query; if it names PubMed and
    has no such text, the query is the first of the next four lines that is
    neither empty nor a comment. *)
Theorem first_usable_line_decides search_content pre raw post :
  split_on 10 search_content = pre ++ raw :: post ->
  Forall (fun l => passed_over (strip l) = true) pre ->
  passed_over (strip raw) = false ->
  (contains (cps "pubmed") (lower (strip raw)) = false ->
   pubmed_query_of search_content = Some (strip raw)) /\
  (contains (cps "pubmed") (lower (strip raw)) = true ->
   forall q, after_colon (strip raw) = Some q ->
             pubmed_query_of search_content = Some q) /\
  (contains (cps "pubmed") (lower (strip raw)) = true ->
   after_colon (strip raw) = None ->
   forall q, first_usable (take 4 post) = Some q ->
             pubmed_query_of search_content = Some q).
Proof.
  intros Hlines Hpre Hraw.
  unfold passed_over in Hraw. apply orb_false_iff in Hraw as [Hs Hraw].
  unfold pubmed_query_of. cbv zeta.
  rewrite Hlines, (scan_lines_first_usable _ _ _ Hpre Hs).
  split; [|split].
  - intros Hp. rewrite Hp in *. cbn [negb andb] in Hraw.
    apply Nat.leb_gt in Hraw.
    destruct (Nat.ltb_spec 10 (length (strip raw))); [|lia].
    destruct (strip raw); [discriminate | reflexivity].
  - intros Hp q Hq. rewrite Hp, Hq.
    destruct (after_colon_query _ _ Hq) as (Hne & _).
    destruct q; [congruence | reflexivity].
  - intros Hp Hc q Hq. rewrite Hp, Hc, Hq, (first_usable_filled _ _ Hq).
    reflexivity.
Qed.

End Extractor.

(** ** Independence of the digit table beyond what it says of the text *)

Lemma star_agree body1 body2 :
  (forall s g k1 k2,
      (forall s' g', k1 s' g' = k2 s' g') -> body1 s g k1 = body2 s g k2) ->
  forall n s g k1 k2,
    (forall s' g', k1 s' g' = k2 s' g') ->
    star body1 n s g k1 = star body2 n s g k2.
Proof.
  intros Hb n. induction n as [|n IH]; intros s g k1 k2 Hk; simpl.
  - apply Hk.
  - rewrite (Hk s g). f_equal. apply Hb. intros s' g'.
    destruct (length s' <? length s)%nat; [apply IH; exact Hk | reflexivity].
Qed.

Lemma bt_agree d1 d2 r :
  (forall c, d1 c = d2 c) ->
  forall s g k1 k2,
    (forall s' g', k1 s' g' = k2 s' g') -> bt d1 r s g k1 = bt d2 r s g k2.
Proof.
  intros Hd. induction r; intros s g k1 k2 Hk; simpl.
  - unfold one_char. destruct s; [reflexivity|]. destruct (_ =? _)%N; auto.
  - unfold one_char. destruct s; [reflexivity|]. destruct (existsb _ _); auto.
  - unfold one_char. destruct s; [reflexivity|]. rewrite Hd.
    destruct (d2 _); auto.
  - apply IHr1. intros s' g'. apply IHr2. exact Hk.
  - apply star_agree; assumption.
  - apply IHr. intros s' g'. apply star_agree; assumption.
  - rewrite (IHr s g k1 k2 Hk), (Hk s g). reflexivity.
  - apply IHr. intros s' g'. apply Hk.
Qed.

Lemma findall_agree d1 d2 r s :
  (forall c, d1 c = d2 c) -> findall d1 r s = findall d2 r s.
Proof.
  intros Hd. unfold findall. generalize (S (length s)) as fuel. intros fuel.
  revert s. induction fuel as [|fuel IH]; intros s; simpl; [reflexivity|].
  rewrite (bt_agree d1 d2 r Hd s None accept accept) by reflexivity.
  destruct (bt d2 r s None accept) as [[rest g]|].
  - f_equal. destruct (length rest <? length s)%nat; [apply IH|].
    destruct s; [reflexivity | apply IH].
  - destruct s; [reflexivity | apply IH].
Qed.

Lemma extract_percentage_ascii_view d text :
  decimal_ok d ->
  extract_percentage d text = extract_percentage (ascii_view d) text.
Proof.
  intros Hok. unfold extract_percentage.
  rewrite (findall_agree d (ascii_view d)); [reflexivity|].
  intros c. unfold ascii_view. destruct (N.ltb_spec c 128); [auto | reflexivity].
Qed.

Lemma extract_cost_ascii_view d text :
  decimal_ok d -> extract_cost d text = extract_cost (ascii_view d) text.
Proof.
  intros Hok. unfold extract_cost.
  rewrite (findall_agree d (ascii_view d)); [reflexivity|].
  intros c. unfold ascii_view. destruct (N.ltb_spec c 128); [auto | reflexivity].
Qed.

Lemma lower_ok_ascii : lower_ok ascii_lower.
Proof. intros s _. reflexivity. Qed.

Lemma decimal_ok_ascii : decimal_ok ascii_decimal.
Proof. intros c _. reflexivity. Qed.

(** ** The examples of the specification *)

(** C3: the percentage taken from a text is the unsigned decimal number in
    front of the leftmost percent sign that has one, given as it is
    written, and there is none when no number stands in front of a percent
    sign; of "efficacy was 85% in group A and 90% in group B" the efficacy
    field under hpv_vaccine is "85". *)
Theorem percentage_is_first_match lower is_decimal :
  lower_ok lower -> decimal_ok is_decimal ->
  (forall text pre n post,
      text = pre ++ n ++ [37%N] ++ post ->
      unsigned_decimal is_decimal n ->
      (forall pre' n' post',
          text = pre' ++ n' ++ [37%N] ++ post' ->
          unsigned_decimal is_decimal n' ->
          (length pre <= length pre')%nat) ->
      extract_percentage is_decimal text = PStr n) /\
  (forall text,
      ~ occurs_in is_decimal percentage_re text ->
      extract_percentage is_decimal text = PNone) /\
  (forall a,
      dict_get a "abstract" =
        PStr (cps "efficacy was 85% in group A and 90% in group B") ->
      text_or_none (dict_get a "title") = true ->
      exists dp,
        data_point_of lower is_decimal "hpv_vaccine" a = Ok dp /\
        dp !! "efficacy" = Some (PStr (cps "85"))).
Proof.
  intros Hlow Hok. split; [|split].
  - intros text pre n post. apply extract_percentage_leftmost.
    rewrite Hok by reflexivity. reflexivity.
  - intros text. apply extract_percentage_PNone.
  - intros a Ha Ht.
    rewrite data_point_of_well_typed by (split; [exact Ht | rewrite Ha; reflexivity]).
    eexists. split; [reflexivity|].
    rewrite Ha. cbn [text_of]. rewrite Hlow by reflexivity.
    pose proof (project_fields_rule is_decimal "hpv_vaccine"
                  (ascii_lower (cps "efficacy was 85% in group A and 90% in group B")) a
                  (Rule ["efficacy"; "effectiveness"] "efficacy" Percentage)
                  ltac:(vm_compute; left)) as Hr.
    cbn [field how extract] in Hr. rewrite Hr.
    rewrite extract_percentage_ascii_view by exact Hok.
    vm_compute. reflexivity.
Qed.

(** C4: the rupee sign is not among the characters the currency pattern
    accepts in front of an amount, so "cost " followed by U+20B9 and "500"
    yields no cost, where "cost $500" yields "500" and
    "cost of $1,200.50 per dose" yields "1200.50". *)
Theorem rupee_amount_not_extracted :
  let rupees := cps "cost " ++ [8377%N] ++ cps "500" in
  (forall is_decimal, extract_cost is_decimal rupees = PNone) /\
  extract_cost ascii_decimal (cps "cost $500") = PStr (cps "500") /\
  extract_cost ascii_decimal (cps "cost of $1,200.50 per dose") =
    PStr (cps "1200.50") /\
  exists dp,
    extract_relevant_data ascii_lower ascii_decimal
      [Some (sample "Vaccine pricing" rupees)] "hpv_vaccine" = Ok [dp] /\
    dp !! "cost" = Some PNone.
Proof.
  cbv zeta.
  split; [intros is_decimal; vm_compute; reflexivity|].
  split; [vm_compute; reflexivity|].
  split; [vm_compute; reflexivity|].
  exists (project_fields ascii_decimal "hpv_vaccine"
            (ascii_lower (cps "cost " ++ [8377%N] ++ cps "500"))
            (baseline (sample "Vaccine pricing"
                         (cps "cost " ++ [8377%N] ++ cps "500")))).
  split; vm_compute; reflexivity.
Qed.

(** C2 fails as stated: "the cost was high" has the trigger "cost" and no
    currency amount, no other rule of hpv_vaccine fires on it, and yet its
    data point has the field "cost", holding [None], and is in the output. *)
Lemma trigger_without_number_counterexample :
  let abstract := cps "the cost was high" in
  has "cost" (ascii_lower abstract) = true /\
  ~ occurs_in ascii_decimal cost_re (ascii_lower abstract) /\
  List.filter (fires (ascii_lower abstract)) (spec_rules "hpv_vaccine") =
    [Rule ["cost"; "price"] "cost" Currency] /\
  exists dp,
    extract_relevant_data ascii_lower ascii_decimal
      [Some (sample "Vaccine pricing" abstract)] "hpv_vaccine" = Ok [dp] /\
    dp !! "cost" = Some PNone /\
    dp !! "cost" <> None.
Proof.
  cbv zeta. split; [vm_compute; reflexivity|].
  split; [apply extract_cost_PNone; vm_compute; reflexivity|].
  split; [vm_compute; reflexivity|].
  exists (project_fields ascii_decimal "hpv_vaccine"
            (ascii_lower (cps "the cost was high"))
            (baseline (sample "Vaccine pricing" (cps "the cost was high")))).
  split; [vm_compute; reflexivity|].
  split; [vm_compute; reflexivity | vm_compute; discriminate].
Qed.

(** C1: a record whose abstract has a trigger and no number is in the
    output although no metric was found for it: "the cost was high" has
    neither a percentage nor a currency amount, and its data point, the
    four baseline fields and "cost" holding [None], is kept.  Where an
    amount is found, "the cost was $12", the field holds it. *)
Theorem record_without_metric_is_kept :
  let a := sample "Vaccine pricing" (cps "the cost was high") in
  let b := sample "Vaccine pricing" (cps "the cost was $12") in
  extract_percentage ascii_decimal (ascii_lower (cps "the cost was high")) =
    PNone /\
  extract_cost ascii_decimal (ascii_lower (cps "the cost was high")) =
    PNone /\
  extract_relevant_data ascii_lower ascii_decimal [Some a] "hpv_vaccine" =
    Ok [<["cost" := PNone]> (baseline a)] /\
  extract_relevant_data ascii_lower ascii_decimal [Some b] "hpv_vaccine" =
    Ok [<["cost" := PStr (cps "12")]> (baseline b)].
Proof.
  cbv zeta. repeat split; vm_compute; reflexivity.
Qed.

(** The extractor does raise when a text field holds something that is
    neither a string nor falsy: [(5 or "").lower()] has no [lower]. *)
Example ill_typed_title_raises :
  extract_relevant_data ascii_lower ascii_decimal
    [Some (<["title" := PInt 5]> (sample "" (cps "Efficacy was 85%")))]
    "hpv_vaccine" = Raise AttributeError.
Proof. vm_compute. reflexivity. Qed.

(** ** The theorems at sample records *)

Lemma retained_iff_more_than_four_fields_witness :
  let a := sample "HPV trial" (cps "Efficacy was 85% in group A") in
  let b := sample "Editorial" (cps "No numbers here") in
  let out := [project_fields ascii_decimal "hpv_vaccine"
                (ascii_lower (cps "Efficacy was 85% in group A"))
                (baseline a)] in
  extract_relevant_data ascii_lower ascii_decimal [Some a; Some b]
    "hpv_vaccine" = Ok out /\
  forall dp,
    dp ∈ out <->
    exists r, Some r ∈ [Some a; Some b] /\
              data_point_of ascii_lower ascii_decimal "hpv_vaccine" r = Ok dp /\
              (4 < size dp)%nat.
Proof.
  cbv zeta.
  assert (H : extract_relevant_data ascii_lower ascii_decimal
                [Some (sample "HPV trial" (cps "Efficacy was 85% in group A"));
                 Some (sample "Editorial" (cps "No numbers here"))]
                "hpv_vaccine" =
              Ok [project_fields ascii_decimal "hpv_vaccine"
                    (ascii_lower (cps "Efficacy was 85% in group A"))
                    (baseline (sample "HPV trial"
                                 (cps "Efficacy was 85% in group A")))])
    by (vm_compute; reflexivity).
  split; [exact H|].
  exact (proj1 (retained_iff_more_than_four_fields ascii_lower ascii_decimal
                  _ _ _ H)).
Defined.

Lemma trigger_without_number_stores_None_witness :
  let a := sample "Vaccine pricing" (cps "The cost was high") in
  let dp := project_fields ascii_decimal "hpv_vaccine"
              (ascii_lower (cps "The cost was high")) (baseline a) in
  data_point_of ascii_lower ascii_decimal "hpv_vaccine" a = Ok dp /\
  dp !! "cost" = Some PNone.
Proof.
  cbv zeta.
  assert (H : data_point_of ascii_lower ascii_decimal "hpv_vaccine"
                (sample "Vaccine pricing" (cps "The cost was high")) =
              Ok (project_fields ascii_decimal "hpv_vaccine"
                    (ascii_lower (cps "The cost was high"))
                    (baseline (sample "Vaccine pricing"
                                 (cps "The cost was high")))))
    by (vm_compute; reflexivity).
  split; [exact H|].
  apply (trigger_without_number_stores_None ascii_lower ascii_decimal
           "hpv_vaccine"
           (sample "Vaccine pricing" (cps "The cost was high"))
           (ascii_lower (cps "The cost was high")) _
           (Rule ["cost"; "price"] "cost" Currency)).
  - vm_compute. reflexivity.
  - exact H.
  - vm_compute. right. left.
  - vm_compute. reflexivity.
  - apply extract_cost_PNone. vm_compute. reflexivity.
Defined.

Lemma percentage_is_first_match_witness :
  exists dp,
    data_point_of ascii_lower ascii_decimal "hpv_vaccine"
      (sample "HPV trial"
         (cps "efficacy was 85% in group A and 90% in group B")) = Ok dp /\
    dp !! "efficacy" = Some (PStr (cps "85")).
Proof.
  apply (percentage_is_first_match ascii_lower ascii_decimal).
  - intros s _. reflexivity.
  - intros c _. reflexivity.
  - vm_compute. reflexivity.
  - vm_compute. reflexivity.
Defined.

Lemma unrecognized_category_yields_nothing_witness :
  extract_relevant_data ascii_lower ascii_decimal
    [Some (sample "HPV trial" (cps "Efficacy was 85% and cost $12"))]
    "general" = Ok [].
Proof.
  apply (unrecognized_category_yields_nothing ascii_lower ascii_decimal).
  - apply (bool_decide_unpack _). vm_compute. exact I.
  - intros a Ha. apply list_elem_of_singleton in Ha. injection Ha as ->.
    split; vm_compute; reflexivity.
Defined.

Lemma output_preserves_input_order_witness :
  let a := sample "First" (cps "Efficacy was 85%") in
  let b := sample "Second" (cps "No numbers here") in
  let c := sample "Third" (cps "Uptake reached 60%") in
  let out := [project_fields ascii_decimal "hpv_vaccine"
                (ascii_lower (cps "Efficacy was 85%")) (baseline a);
              project_fields ascii_decimal "hpv_vaccine"
                (ascii_lower (cps "Uptake reached 60%")) (baseline c)] in
  extract_relevant_data ascii_lower ascii_decimal
    [Some a; None; Some b; Some c] "hpv_vaccine" = Ok out /\
  exists kept,
    (Some <$> kept) `sublist_of` [Some a; None; Some b; Some c] /\
    Forall2 (fun r dp =>
               data_point_of ascii_lower ascii_decimal "hpv_vaccine" r = Ok dp)
            kept out.
Proof.
  cbv zeta.
  assert (H : extract_relevant_data ascii_lower ascii_decimal
                [Some (sample "First" (cps "Efficacy was 85%")); None;
                 Some (sample "Second" (cps "No numbers here"));
                 Some (sample "Third" (cps "Uptake reached 60%"))]
                "hpv_vaccine" =
              Ok [project_fields ascii_decimal "hpv_vaccine"
                    (ascii_lower (cps "Efficacy was 85%"))
                    (baseline (sample "First" (cps "Efficacy was 85%")));
                  project_fields ascii_decimal "hpv_vaccine"
                    (ascii_lower (cps "Uptake reached 60%"))
                    (baseline (sample "Third" (cps "Uptake reached 60%")))])
    by (vm_compute; reflexivity).
  split; [exact H|].
  exact (output_preserves_input_order ascii_lower ascii_decimal _ _ _ H).
Defined.

Lemma category_isolation_witness :
  let a := sample "Screening and vaccination"
             (cps "Sensitivity: 80% and efficacy: 70%") in
  let abstract := ascii_lower (cps "Sensitivity: 80% and efficacy: 70%") in
  let dp_hpv := project_fields ascii_decimal "hpv_vaccine" abstract
                  (baseline a) in
  let dp_ncd := project_fields ascii_decimal "ncd_screening" abstract
                  (baseline a) in
  ((exists v, dp_hpv !! "efficacy" = Some (PStr v)) /\
   dp_hpv !! "sensitivity" = None) /\
  ((exists v, dp_ncd !! "sensitivity" = Some (PStr v)) /\
   dp_ncd !! "efficacy" = None).
Proof.
  cbv zeta.
  pose proof (category_isolation ascii_lower ascii_decimal
                (sample "Screening and vaccination"
                   (cps "Sensitivity: 80% and efficacy: 70%"))
                (ascii_lower (cps "Sensitivity: 80% and efficacy: 70%"))
                (project_fields ascii_decimal "hpv_vaccine"
                   (ascii_lower (cps "Sensitivity: 80% and efficacy: 70%"))
                   (baseline (sample "Screening and vaccination"
                                (cps "Sensitivity: 80% and efficacy: 70%"))))
                (project_fields ascii_decimal "ncd_screening"
                   (ascii_lower (cps "Sensitivity: 80% and efficacy: 70%"))
                   (baseline (sample "Screening and vaccination"
                                (cps "Sensitivity: 80% and efficacy: 70%"))))
                (fun c _ => eq_refl)) as H.
  destruct H as (Hh & Hn & _); [vm_compute; reflexivity..|].
  split; assumption.
Defined.

Lemma never_raises_and_drops_empty_text_witness :
  let a := sample "HPV trial" (cps "Efficacy was 85%") in
  let b := sample "" [] in
  (exists out,
      extract_relevant_data ascii_lower ascii_decimal [Some a; Some b]
        "hpv_vaccine" = Ok out) /\
  extract_relevant_data ascii_lower ascii_decimal [Some a; Some b]
    "hpv_vaccine" =
  extract_relevant_data ascii_lower ascii_decimal ([Some a] ++ [])
    "hpv_vaccine".
Proof.
  cbv zeta.
  pose proof (never_raises_and_drops_empty_text ascii_lower ascii_decimal
                [Some (sample "HPV trial" (cps "Efficacy was 85%"));
                 Some (sample "" [])] "hpv_vaccine"
                (fun s _ => eq_refl)) as H.
  destruct H as [Hok Hdrop].
  - intros r Hr. apply elem_of_cons in Hr as [[= ->] | Hr];
      [split; vm_compute; reflexivity|].
    apply list_elem_of_singleton in Hr. injection Hr as ->.
    split; vm_compute; reflexivity.
  - split; [exact Hok|].
    apply (Hdrop [Some (sample "HPV trial" (cps "Efficacy was 85%"))]
             (sample "" []) []); [reflexivity | vm_compute; reflexivity..].
Defined.

Lemma baseline_verbatim_metrics_from_abstract_witness :
  let a := sample "HPV Trial" (cps "Efficacy was 85%") in
  let b := sample "Another TITLE" (cps "Efficacy was 85%") in
  let out := [project_fields ascii_decimal "hpv_vaccine"
                (ascii_lower (cps "Efficacy was 85%")) (baseline a)] in
  extract_relevant_data ascii_lower ascii_decimal [Some a] "hpv_vaccine"
    = Ok out /\
  (forall dp,
      dp ∈ out ->
      exists r, Some r ∈ [Some a] /\
                data_point_of ascii_lower ascii_decimal "hpv_vaccine" r = Ok dp /\
                forall k, k ∈ baseline_keys -> dp !! k = Some (dict_get r k)) /\
  (forall dp1 dp2,
      data_point_of ascii_lower ascii_decimal "hpv_vaccine" a = Ok dp1 ->
      data_point_of ascii_lower ascii_decimal "hpv_vaccine" b = Ok dp2 ->
      (forall k, ~ k ∈ baseline_keys -> dp1 !! k = dp2 !! k) /\
      size dp1 = size dp2).
Proof.
  cbv zeta.
  assert (H : extract_relevant_data ascii_lower ascii_decimal
                [Some (sample "HPV Trial" (cps "Efficacy was 85%"))]
                "hpv_vaccine" =
              Ok [project_fields ascii_decimal "hpv_vaccine"
                    (ascii_lower (cps "Efficacy was 85%"))
                    (baseline (sample "HPV Trial" (cps "Efficacy was 85%")))])
    by (vm_compute; reflexivity).
  destruct (baseline_verbatim_metrics_from_abstract ascii_lower ascii_decimal
              _ _ _ H) as [Hbase Hmetric].
  split; [exact H|]. split; [exact Hbase|].
  intros dp1 dp2. apply Hmetric. vm_compute. reflexivity.
Defined.

Lemma percentage_rules_share_value_witness :
  let a := sample "HPV programme"
             (cps "Coverage was 60% while efficacy reached 85%") in
  let abstract :=
    ascii_lower (cps "Coverage was 60% while efficacy reached 85%") in
  let dp := project_fields ascii_decimal "hpv_vaccine" abstract (baseline a) in
  extract_percentage ascii_decimal abstract = PStr (cps "60") /\
  dp !! "efficacy" = Some (extract_percentage ascii_decimal abstract) /\
  dp !! "coverage" = dp !! "efficacy".
Proof.
  cbv zeta. split; [vm_compute; reflexivity|].
  apply (percentage_rules_share_value ascii_lower ascii_decimal
           "hpv_vaccine"
           (sample "HPV programme"
              (cps "Coverage was 60% while efficacy reached 85%"))
           (ascii_lower (cps "Coverage was 60% while efficacy reached 85%"))
           _
           (Rule ["efficacy"; "effectiveness"] "efficacy" Percentage)
           (Rule ["coverage"; "uptake"] "coverage" Percentage)).
  - vm_compute. reflexivity.
  - vm_compute. reflexivity.
  - vm_compute. left.
  - vm_compute. right. right. left.
  - reflexivity.
  - reflexivity.
  - vm_compute. reflexivity.
  - vm_compute. reflexivity.
Defined.

(** ** The further theorems at sample inputs *)

Lemma cost_is_in_text_witness :
  exists pre c amount post,
    cps "cost of $1,200.50 per dose" = pre ++ c :: amount ++ post /\
    c ∈ [36; 226; 8218; 185]%N /\
    lang ascii_decimal amount_re amount /\
    cps "1200.50" = remove_char 44 amount /\
    clean_head ascii_decimal post /\
    forall pre' c' d post',
      cps "cost of $1,200.50 per dose" = pre' ++ c' :: d :: post' ->
      c' ∈ [36; 226; 8218; 185]%N -> ascii_decimal d = true ->
      (length pre <= length pre')%nat.
Proof.
  apply (cost_is_in_text ascii_decimal (cps "cost of $1,200.50 per dose")
           (cps "1200.50")).
  vm_compute. reflexivity.
Defined.

Lemma cost_is_a_number_witness :
  unsigned_decimal ascii_decimal (cps "1200.50") /\ ~ 44%N ∈ cps "1200.50".
Proof.
  apply (cost_is_a_number ascii_decimal (cps "cost of $1,200.50 per dose")
           (cps "1200.50")).
  - reflexivity.
  - vm_compute. reflexivity.
Defined.

Lemma percentage_is_in_text_witness :
  exists pre post,
    cps "efficacy was 85% in group a" = pre ++ cps "85" ++ [37%N] ++ post /\
    unsigned_decimal ascii_decimal (cps "85") /\
    (forall pre' d, pre = pre' ++ [d] -> ascii_decimal d = false) /\
    forall pre' d post',
      cps "efficacy was 85% in group a" = pre' ++ d :: 37%N :: post' ->
      ascii_decimal d = true -> (length pre <= length pre')%nat.
Proof.
  apply (percentage_is_in_text ascii_decimal (cps "efficacy was 85% in group a")
           (cps "85")).
  vm_compute. reflexivity.
Defined.

Lemma metric_values_are_numbers_witness :
  PStr (cps "85") = PNone \/
  exists n, PStr (cps "85") = PStr n /\ unsigned_decimal ascii_decimal n.
Proof.
  apply (metric_values_are_numbers ascii_lower ascii_decimal
           [Some (sample "HPV trial" (cps "Efficacy was 85%"))] "hpv_vaccine"
           [project_fields ascii_decimal "hpv_vaccine"
              (ascii_lower (cps "Efficacy was 85%"))
              (baseline (sample "HPV trial" (cps "Efficacy was 85%")))]
           (project_fields ascii_decimal "hpv_vaccine"
              (ascii_lower (cps "Efficacy was 85%"))
              (baseline (sample "HPV trial" (cps "Efficacy was 85%"))))
           "efficacy").
  - reflexivity.
  - vm_compute. reflexivity.
  - left.
  - apply (bool_decide_unpack _). vm_compute. exact I.
  - vm_compute. reflexivity.
Defined.

Lemma output_field_count_witness :
  (5 <= size (project_fields ascii_decimal "hpv_vaccine"
                (ascii_lower (cps "Efficacy was 85% at a cost of $12"))
                (baseline (sample "HPV trial"
                             (cps "Efficacy was 85% at a cost of $12")))) <= 7)%nat.
Proof.
  apply (output_field_count ascii_lower ascii_decimal
           [Some (sample "HPV trial" (cps "Efficacy was 85% at a cost of $12"))]
           "hpv_vaccine"
           [project_fields ascii_decimal "hpv_vaccine"
              (ascii_lower (cps "Efficacy was 85% at a cost of $12"))
              (baseline (sample "HPV trial"
                           (cps "Efficacy was 85% at a cost of $12")))]).
  - vm_compute. reflexivity.
  - left.
Defined.

Lemma batches_extract_independently_witness :
  let a := sample "First" (cps "Efficacy was 85%") in
  let b := sample "Second" (cps "Uptake reached 60%") in
  let dp_a := project_fields ascii_decimal "hpv_vaccine"
                (ascii_lower (cps "Efficacy was 85%")) (baseline a) in
  let dp_b := project_fields ascii_decimal "hpv_vaccine"
                (ascii_lower (cps "Uptake reached 60%")) (baseline b) in
  extract_relevant_data ascii_lower ascii_decimal ([Some a] ++ [Some b])
    "hpv_vaccine" = Ok ([dp_a] ++ [dp_b]) /\
  extract_relevant_data ascii_lower ascii_decimal ([Some a] ++ None :: [Some b])
    "hpv_vaccine" = Ok ([dp_a] ++ [dp_b]).
Proof.
  cbv zeta.
  apply (batches_extract_independently ascii_lower ascii_decimal);
    vm_compute; reflexivity.
Defined.

Lemma batching_is_transparent_witness :
  search_and_fetch unit sample_esearch sample_efetch (cps "hpv vaccine") 50 =
  inr (map (fun id => article_of_xml (sample_xml id))
           (take 100 [cps "31452104"; cps "31452105"])).
Proof.
  apply (batching_is_transparent unit sample_esearch sample_efetch).
  - reflexivity.
  - intros batch _. reflexivity.
Defined.

Lemma first_failing_batch_raises_witness :
  search_and_fetch unit sample_esearch failing_efetch (cps "hpv vaccine") 50 =
  inl tt.
Proof.
  apply (first_failing_batch_raises unit sample_esearch failing_efetch
           (cps "hpv vaccine") 50 [cps "31452104"; cps "31452105"]
           [] [cps "31452104"; cps "31452105"] []).
  - reflexivity.
  - vm_compute. reflexivity.
  - constructor.
  - reflexivity.
Defined.

Lemma fetched_records_extract_witness :
  let articles := [article_of_xml (sample_xml (cps "31452104"));
                   article_of_xml (sample_xml (cps "31452105"))] in
  Forall well_typed articles /\
  forall pt, exists out,
    extract_relevant_data ascii_lower ascii_decimal (Some <$> articles) pt =
    Ok out.
Proof.
  cbv zeta.
  apply (fetched_records_extract ascii_lower ascii_decimal unit
           sample_esearch sample_efetch (cps "hpv vaccine") 50).
  vm_compute. reflexivity.
Defined.


Lemma query_is_a_stripped_piece_of_a_line_witness :
  let content := cps "# Search strings" ++ [10%N] ++
                 cps "PubMed:  hpv vaccine AND india  " ++ [10%N] in
  let q := cps "hpv vaccine AND india" in
  pubmed_query_of ascii_lower ascii_space content = Some q /\
  q <> [] /\ strip ascii_space q = q /\ ~ 10%N ∈ q /\
  contains q content = true.
Proof.
  cbv zeta.
  assert (H : pubmed_query_of ascii_lower ascii_space
                (cps "# Search strings" ++ [10%N] ++
                 cps "PubMed:  hpv vaccine AND india  " ++ [10%N]) =
              Some (cps "hpv vaccine AND india"))
    by (vm_compute; reflexivity).
  split; [exact H|].
  exact (query_is_a_stripped_piece_of_a_line ascii_lower ascii_space _ _ H).
Defined.

Lemma no_query_without_a_usable_line_witness :
  let content := cps "# only a comment" ++ [10%N] ++ cps "- an item" ++
                 [10%N] ++ cps "too short" ++ [10%N] in
  pubmed_query_of ascii_lower ascii_space content = None /\
  forall project_name,
    perform_literature_search ascii_lower ascii_decimal ascii_space unit
      sample_esearch sample_efetch unit None sample_write_csv
      (Some (inr content)) project_name =
    Returned unit unit None [].
Proof.
  cbv zeta.
  apply (no_query_without_a_usable_line ascii_lower ascii_decimal ascii_space
           unit sample_esearch sample_efetch unit None sample_write_csv).
  apply (bool_decide_unpack _). vm_compute. exact I.
Defined.

Lemma first_usable_line_decides_witness :
  let content := cps "# Search strings" ++ [10%N] ++ cps "PubMed" ++
                 [10%N] ++ [10%N] ++ cps "hpv vaccine AND india" in
  pubmed_query_of ascii_lower ascii_space content =
  Some (cps "hpv vaccine AND india").
Proof.
  cbv zeta.
  destruct (first_usable_line_decides ascii_lower ascii_space
              (cps "# Search strings" ++ [10%N] ++ cps "PubMed" ++
               [10%N] ++ [10%N] ++ cps "hpv vaccine AND india")
              [cps "# Search strings"] (cps "PubMed")
              [[]; cps "hpv vaccine AND india"]) as (_ & _ & H).
  - vm_compute. reflexivity.
  - apply (bool_decide_unpack _). vm_compute. exact I.
  - vm_compute. reflexivity.
  - apply H; vm_compute; reflexivity.
Defined.

(** An exception of a file step goes through: when [read_text] raises, and
    when [mkdir] raises after the search, the run ends with that exception
    and nothing written. *)
Example file_exception_goes_through :
  perform_literature_search ascii_lower ascii_decimal ascii_space unit
    sample_esearch sample_efetch unit None sample_write_csv
    (Some (inl tt)) (cps "pilot_study_03") =
  FileError unit unit tt [] /\
  perform_literature_search ascii_lower ascii_decimal ascii_space unit
    sample_esearch sample_efetch unit (Some tt) sample_write_csv
    (Some (inr (cps "PubMed: hpv vaccine india"))) (cps "pilot_study_03") =
  FileError unit unit tt [].
Proof. split; vm_compute; reflexivity. Qed.

(** A missing file ends [update_data_extraction_template] before the folder
    name is looked at. *)
Example missing_file_returns_before_the_chain :
  update_data_extraction_template ascii_lower unit unit
    None (Some (inr tt)) (cps "hpv_vaccine_india") =
  NoExtractedData unit unit /\
  update_data_extraction_template ascii_lower unit unit
    (Some (inr tt)) None (cps "hpv_vaccine_india") =
  NoTemplateFile unit unit /\
  update_data_extraction_template ascii_lower unit unit
    (Some (inr tt)) (Some (inr tt)) (cps "hpv_vaccine_india") =
  Fill unit unit HpvTemplate tt tt.
Proof. repeat split; vm_compute; reflexivity. Qed.
